(** * giteaHelper: OAuth2 token lifecycle and authenticated Gitea calls

    A shallow embedding of [src/services/providers/helpers/giteaHelper.js].
    The module is asynchronous JavaScript that talks to its collaborators
    (the network service, the Vuex store, the user and badge services, the
    utilities).  Here every [async] function is a computation in a state and
    exception monad over a [World]: the world holds the store, the clock,
    the replies the collaborators are going to give, and the trace of the
    calls made so far. *)

From Stdlib Require Import ZArith NArith String Ascii List Lia Bool.
From Stdlib Require Import SpecFloat.
From stdpp Require Import base option list gmap strings pretty.

Local Open Scope string_scope.
Local Open Scope Z_scope.
Local Open Scope list_scope.

(** ** JavaScript values *)

(** *** Numbers

    The Number type is IEEE 754 binary64.  [spec_float] with a precision of
    53 bits and [emax = 1024] is that format, and [SFmul] and [SFadd] round
    to nearest, ties to even, as the language does. *)
Definition double_of_Z (z : Z) : spec_float := binary_normalize 53 1024 z 0 false.

(** The bytes of a string. *)
Fixpoint bytes_of_string (s : string) : list N :=
  match s with
  | EmptyString => []
  | String c rest => N_of_ascii c :: bytes_of_string rest
  end.

(** One StrWhiteSpaceChar at the head of a UTF-8 byte sequence: TAB, LF,
    VT, FF, CR, SP, U+00A0, U+1680, U+2000 to U+200A, U+2028, U+2029,
    U+202F, U+205F, U+3000, U+FEFF.  Returns what follows it. *)
Definition skip_white_space_char (l : list N) : option (list N) :=
  match l with
  | 9%N :: r | 10%N :: r | 11%N :: r | 12%N :: r | 13%N :: r | 32%N :: r => Some r
  | 194%N :: 160%N :: r => Some r
  | 225%N :: 154%N :: 128%N :: r => Some r
  | 226%N :: 128%N :: b :: r =>
      if ((128 <=? b) && (b <=? 138) || (b =? 168) || (b =? 169) || (b =? 175))%N
      then Some r else None
  | 226%N :: 129%N :: 159%N :: r => Some r
  | 227%N :: 128%N :: 128%N :: r => Some r
  | 239%N :: 187%N :: 191%N :: r => Some r
  | _ => None
  end.

Fixpoint skip_white_space (fuel : nat) (l : list N) : list N :=
  match fuel with
  | O => l
  | S fuel' =>
      match skip_white_space_char l with
      | Some r => skip_white_space fuel' r
      | None => l
      end
  end.

(** Nothing but white space is left. *)
Definition only_white_space (l : list N) : bool :=
  match skip_white_space (length l) l with
  | [] => true
  | _ => false
  end.

(** The value of a digit in the given radix, if it is one. *)
Definition digit_value (radix : N) (b : N) : option N :=
  let v :=
    if ((48 <=? b) && (b <=? 57))%N then Some (b - 48)%N
    else if ((97 <=? b) && (b <=? 102))%N then Some (b - 87)%N
    else if ((65 <=? b) && (b <=? 70))%N then Some (b - 55)%N
    else None in
  match v with
  | Some d => if (d <? radix)%N then Some d else None
  | None => None
  end.

(** The longest run of digits at the head of [l]: its value so far
    extended, the number of digits read, and what follows. *)
Fixpoint read_digits (radix : N) (l : list N) (acc : N) (count : nat)
  : N * nat * list N :=
  match l with
  | b :: r =>
      match digit_value radix b with
      | Some d => read_digits radix r (acc * radix + d)%N (S count)
      | None => (acc, count, l)
      end
  | [] => (acc, count, l)
  end.

(** The mathematical value [m * 10^e], rounded once to a double. *)
Definition round_decimal (negative : bool) (m : N) (e : Z) : spec_float :=
  match m with
  | N0 => S754_zero negative
  | Npos p =>
      if 0 <=? e then
        binary_normalize 53 1024
          ((if negative then Zneg p else Zpos p) * 10 ^ e) 0 false
      else
        SFdiv 53 1024 (S754_finite negative p 0)
              (S754_finite false (Z.to_pos (10 ^ (- e))) 0)
  end.

(** An optional ExponentPart, then white space to the end. *)
Definition read_exponent (l : list N) : option Z :=
  match l with
  | b :: r =>
      if ((b =? 101) || (b =? 69))%N then
        let '(negative, digits) :=
          match r with
          | 43%N :: r' => (false, r')
          | 45%N :: r' => (true, r')
          | _ => (false, r)
          end in
        let '(e, count, rest) := read_digits 10 digits 0 O in
        match count with
        | O => None
        | S _ =>
            if only_white_space rest
            then Some (if negative then - Z.of_N e else Z.of_N e)
            else None
        end
      else if only_white_space l then Some 0 else None
  | [] => Some 0
  end.

(** StrUnsignedDecimalLiteral other than Infinity, then white space. *)
Definition read_unsigned_decimal (negative : bool) (l : list N) : spec_float :=
  let '(int_part, int_count, after_int) := read_digits 10 l 0 O in
  let '(mantissa, frac_count, after_frac, has_digits) :=
    match after_int with
    | 46%N :: r =>
        let '(m, total, rest) := read_digits 10 r int_part int_count in
        (m, (total - int_count)%nat, rest,
         match total with O => false | S _ => true end)
    | _ => (int_part, O, after_int,
            match int_count with O => false | S _ => true end)
    end in
  if has_digits then
    match read_exponent after_frac with
    | Some e => round_decimal negative mantissa (e - Z.of_nat frac_count)
    | None => S754_nan
    end
  else S754_nan.

Definition infinity_bytes : list N := bytes_of_string "Infinity".

Fixpoint strip_prefix (prefix l : list N) : option (list N) :=
  match prefix, l with
  | [], _ => Some l
  | a :: prefix', b :: l' => if (a =? b)%N then strip_prefix prefix' l' else None
  | _ :: _, [] => None
  end.

(** StrDecimalLiteral with its optional sign, then white space. *)
Definition read_decimal (l : list N) : spec_float :=
  let '(negative, unsigned) :=
    match l with
    | 43%N :: r => (false, r)
    | 45%N :: r => (true, r)
    | _ => (false, l)
    end in
  match strip_prefix infinity_bytes unsigned with
  | Some rest => if only_white_space rest then S754_infinity negative else S754_nan
  | None => read_unsigned_decimal negative unsigned
  end.

(** NonDecimalIntegerLiteral digits in the given radix, then white
    space. *)
Definition read_radix (radix : N) (l : list N) : spec_float :=
  let '(v, count, rest) := read_digits radix l 0 O in
  match count with
  | O => S754_nan
  | S _ => if only_white_space rest then double_of_Z (Z.of_N v) else S754_nan
  end.

(** StringToNumber: white space around a numeric literal; the empty
    string is zero, anything else not a number. *)
Definition string_to_number (s : string) : spec_float :=
  let l := bytes_of_string s in
  match skip_white_space (length l) l with
  | [] => S754_zero false
  | 48%N :: 120%N :: r | 48%N :: 88%N :: r => read_radix 16 r
  | 48%N :: 111%N :: r | 48%N :: 79%N :: r => read_radix 8 r
  | 48%N :: 98%N :: r | 48%N :: 66%N :: r => read_radix 2 r
  | l' => read_decimal l'
  end.

(** A value in a numeric position: the [expires_in] of a token response,
    the [expiresOn] of a token.  It is a missing field ([undefined]), a
    number, or another JSON scalar that the operators coerce.  [Num z] is
    the integer [z] as a double (doubles up to 2^53 in magnitude hold
    integers exactly); [Double f] is any other double. *)
Inductive JsNum : Type :=
| NumUndefined
| NaN
| Num (z : Z)
| Double (f : spec_float)
| NumNull
| NumBool (b : bool)
| NumString (s : string).

(** ToNumber *)
Definition to_double (n : JsNum) : spec_float :=
  match n with
  | NumUndefined | NaN => S754_nan
  | Num z => double_of_Z z
  | Double f => f
  | NumNull => S754_zero false
  | NumBool b => if b then double_of_Z 1 else S754_zero false
  | NumString s => string_to_number s
  end.

(** A double as a value: an integer where it is one. *)
Definition of_double (f : spec_float) : JsNum :=
  match f with
  | S754_nan => NaN
  | S754_zero _ => Num 0
  | S754_infinity _ => Double f
  | S754_finite negative m e =>
      let sign := if negative then (-1) else 1 in
      if 0 <=? e then Num (sign * (Zpos m * 2 ^ e))
      else if Zpos m mod 2 ^ (- e) =? 0 then Num (sign * (Zpos m / 2 ^ (- e)))
      else Double f
  end.

(** [!!n] *)
Definition num_truthy (n : JsNum) : bool :=
  match n with
  | NumUndefined | NaN | NumNull => false
  | Num z => negb (z =? 0)
  | Double (S754_nan) | Double (S754_zero _) => false
  | Double _ => true
  | NumBool b => b
  | NumString s => negb (String.eqb s "")
  end.

(** [n * k] for a numeric literal [k]: both sides are converted to numbers
    and multiplied as doubles. *)
Definition num_mul (n : JsNum) (k : Z) : JsNum :=
  of_double (SFmul 53 1024 (to_double n) (double_of_Z k)).

(** [t + n] for a number [t] and a number [n], added as doubles. *)
Definition num_add (t : Z) (n : JsNum) : JsNum :=
  of_double (SFadd 53 1024 (double_of_Z t) (to_double n)).

(** [n > t] for a number [t]: every comparison with [undefined] or [NaN]
    is false; integers are compared as the integers they are, other
    values are converted and compared as doubles. *)
Definition num_gt (n : JsNum) (t : Z) : bool :=
  match n with
  | NumUndefined | NaN => false
  | Num z => t <? z
  | _ => SFltb (double_of_Z t) (to_double n)
  end.

(** Loosely typed values that are passed through: ids, hashes, request
    parameters. *)
Inductive JsVal : Type :=
| JsUndefined
| JsNull
| JsBool (b : bool)
| JsNumber (z : Z)
| JsString (s : string).

(** [!!v] *)
Definition truthy (v : JsVal) : bool :=
  match v with
  | JsUndefined | JsNull => false
  | JsBool b => b
  | JsNumber z => negb (z =? 0)
  | JsString s => negb (String.eqb s "")
  end.

(** [`${v}`] *)
Definition to_string (v : JsVal) : string :=
  match v with
  | JsUndefined => "undefined"
  | JsNull => "null"
  | JsBool true => "true"
  | JsBool false => "false"
  | JsNumber z => pretty z
  | JsString s => s
  end.

(** [a || b] *)
Definition js_or (a b : JsVal) : JsVal := if truthy a then a else b.

(** What a promise rejects with, or what a [throw] raises. *)
Inductive JsError : Type :=
| Error (message : string)          (* new Error(message) *)
| TypeError (message : string)      (* raised by the runtime *)
| Rejection (status : option Z) (reason : string).
                                    (* a collaborator's rejection; an HTTP
                                       failure carries its status *)

(** [err.status] *)
Definition status (e : JsError) : option Z :=
  match e with
  | Rejection st _ => st
  | _ => None
  end.

Inductive Result (A : Type) : Type :=
| Ok (a : A)
| Throw (e : JsError).
Arguments Ok {A} a.
Arguments Throw {A} e.

(** ** Data *)

(** The token object built by [startOauth2] (lines 118-127).  A legacy token
    has no [expiresOn]. *)
Module Token.
Record t : Type := mk {
  accessToken : string;
  name : string;
  applicationId : string;
  applicationSecret : string;
  refreshToken : JsVal;
  expiresOn : JsNum;
  serverUrl : string;
  sub : string;
}.
End Token.

(** The options object handed to [networkSvc.request].  An absent [method]
    is [None]; absent [headers], [params] and [body] are the empty list. *)
Module Options.
Record t : Type := mk {
  method : option string;
  url : string;
  headers : list (string * string);
  params : list (string * JsVal);
  body : list (string * JsVal);
}.
End Options.

(** A parsed response body, seen through the fields this module reads. *)
Module Body.
Record t : Type := mk {
  access_token : string;
  refresh_token : JsVal;
  expires_in : JsNum;
  username : string;
  avatar_url : JsVal;
  sha : JsVal;
  content : string;
}.
End Body.

(** The argument of [userSvc.addUserInfo] and the result of the info
    resolver. *)
Module UserInfo.
Record t : Type := mk {
  id : string;
  name : string;
  imageUrl : JsVal;
}.
End UserInfo.

(** What [downloadFile] resolves to. *)
Module Download.
Record t : Type := mk {
  sha : JsVal;
  data : string;
}.
End Download.

(** The calls this module makes on its collaborators, in the order made. *)
Inductive Event : Type :=
| EvStartOauth2 (url : string) (params : list (string * JsVal)) (silent : bool)
                                              (* networkSvc.startOauth2 *)
| EvRequest (options : Options.t)             (* networkSvc.request *)
| EvAddUserInfo (info : UserInfo.t)           (* userSvc.addUserInfo *)
| EvAddGiteaToken (token : Token.t)           (* store.dispatch('data/addGiteaToken') *)
| EvModalOpen (type name : string)            (* store.dispatch('modal/open') *)
| EvAddBadge (name : string).                 (* badgeSvc.addBadge *)

(** ** The world *)

(** What an awaited collaborator call comes back with: the promise settles
    ([inl] rejected, [inr] resolved), some time has passed, and the store's
    [offline] flag may have been changed meanwhile. *)
Record Reply (A : Type) : Type := mkReply {
  outcome : JsError + A;
  elapsed : N;
  offline_after : bool;
}.
Arguments mkReply {A}.
Arguments outcome {A}.
Arguments elapsed {A}.
Arguments offline_after {A}.

(** The collaborators that are not part of this file.  Each reply may
    depend on everything that happened before it. *)
Record Env : Type := mkEnv {
  oauth2RedirectUri : string;                         (* constants.oauth2RedirectUri *)
  encodeBase64 : string -> string;                    (* utils.encodeBase64 *)
  decodeBase64 : string -> JsError + string;          (* utils.decodeBase64 *)
  request_reply : list Event -> Options.t -> Reply Body.t;
  startOauth2_reply :
    list Event -> string -> list (string * JsVal) -> bool -> Reply string;
  modal_reply : list Event -> string -> string -> Reply unit;
}.

Record World : Type := mkWorld {
  env : Env;
  giteaTokensBySub : gmap string Token.t;   (* store.getters['data/giteaTokensBySub'] *)
  offline : bool;                           (* store.state.offline *)
  git : gmap string string;                 (* store.getters['data/computedSettings'].git *)
  now : N;                                  (* Date.now(), milliseconds since the epoch *)
  trace : list Event;
}.

(** ** The monad of asynchronous computations *)

Definition M (A : Type) : Type := World -> Result A * World.

Definition ret {A} (a : A) : M A := fun w => (Ok a, w).

Definition throw {A} (e : JsError) : M A := fun w => (Throw e, w).

Definition bind {A B} (m : M A) (k : A -> M B) : M B := fun w =>
  match m w with
  | (Ok a, w') => k a w'
  | (Throw e, w') => (Throw e, w')
  end.

(** [try { m } catch (err) { h err }] *)
Definition try_catch {A} (m : M A) (h : JsError -> M A) : M A := fun w =>
  match m w with
  | (Ok a, w') => (Ok a, w')
  | (Throw e, w') => h e w'
  end.

Declare Scope js_scope.
Delimit Scope js_scope with js.
Notation "x <- m ;; k" := (bind m (fun x => k))
  (at level 100, m at next level, right associativity) : js_scope.
Notation "m ;; k" := (bind m (fun _ => k))
  (at level 100, right associativity) : js_scope.
Local Open Scope js_scope.

(** A synchronous call on a collaborator: it is recorded, nothing else
    changes. *)
Definition emit (ev : Event) : M unit := fun w =>
  (Ok tt, mkWorld (env w) (giteaTokensBySub w) (offline w) (git w) (now w)
                  (trace w ++ [ev])).

(** An awaited call: it is recorded, the reply is taken from the
    environment, time passes. *)
Definition await {A} (ev : Event) (reply : list Event -> Reply A) : M A := fun w =>
  let r := reply (trace w) in
  let w' := mkWorld (env w) (giteaTokensBySub w) (offline_after r) (git w)
                    (now w + elapsed r)%N (trace w ++ [ev]) in
  match outcome r with
  | inl e => (Throw e, w')
  | inr a => (Ok a, w')
  end.

(** [networkSvc.request(options)] *)
Definition networkSvc_request (options : Options.t) : M Body.t := fun w =>
  await (EvRequest options) (fun h => request_reply (env w) h options) w.

(** [networkSvc.startOauth2(url, params, silent)], resolving to the
    authorization code. *)
Definition networkSvc_startOauth2
    (url : string) (params : list (string * JsVal)) (silent : bool) : M string := fun w =>
  await (EvStartOauth2 url params silent)
        (fun h => startOauth2_reply (env w) h url params silent) w.

(** [store.dispatch('modal/open', { type, name })] *)
Definition modal_open (type name : string) : M unit := fun w =>
  await (EvModalOpen type name) (fun h => modal_reply (env w) h type name) w.

(** Modelled from the spec: the store action [data/addGiteaToken] is not in
    this file.  The Token Store keeps one token per [sub], and an added
    token replaces the entry of its [sub]. *)
Definition dispatch_addGiteaToken (token : Token.t) : M unit := fun w =>
  (Ok tt, mkWorld (env w) (<[Token.sub token := token]> (giteaTokensBySub w))
                  (offline w) (git w) (now w)
                  (trace w ++ [EvAddGiteaToken token])).

(** [Date.now()] *)
Definition Date_now : M Z := fun w => (Ok (Z.of_N (now w)), w).


(** [store.getters['data/giteaTokensBySub']] *)
Definition getters_giteaTokensBySub : M (gmap string Token.t) := fun w =>
  (Ok (giteaTokensBySub w), w).

(** [store.state.offline] *)
Definition state_offline : M bool := fun w => (Ok (offline w), w).

(** [constants.oauth2RedirectUri] *)
Definition constants_oauth2RedirectUri : M string := fun w =>
  (Ok (oauth2RedirectUri (env w)), w).

(** [userSvc.addUserInfo(info)] *)
Definition userSvc_addUserInfo (info : UserInfo.t) : M unit :=
  emit (EvAddUserInfo info).

(** [badgeSvc.addBadge(name)] *)
Definition badgeSvc_addBadge (name : string) : M unit :=
  emit (EvAddBadge name).

(** ** Strings and the two regular expressions *)

Definition is_slash (c : ascii) : bool := Ascii.eqb c "/".

(** Where [.] does not match.  Strings are the UTF-8 bytes of the
    JavaScript string, so of the four line terminators LF and CR are one
    byte each and U+2028 and U+2029 are the bytes E2 80 A8 and E2 80 A9;
    no other character has these bytes in its encoding. *)
Definition at_line_terminator (s : string) : bool :=
  match s with
  | String c rest =>
      Ascii.eqb c "010" || Ascii.eqb c "013"
      || (Ascii.eqb c "226"
          && match rest with
             | String d (String e _) =>
                 Ascii.eqb d "128" && (Ascii.eqb e "168" || Ascii.eqb e "169")
             | _ => false
             end)
  | EmptyString => false
  end.

(** No line terminator starts anywhere in [s]. *)
Fixpoint no_line_terminator (s : string) : bool :=
  match s with
  | EmptyString => true
  | String _ rest => negb (at_line_terminator s) && no_line_terminator rest
  end.

(** [/^[^/]+$/] *)
Fixpoint no_slash (s : string) : bool :=
  match s with
  | EmptyString => true
  | String c rest => negb (is_slash c) && no_slash rest
  end.

Definition nonempty (s : string) : bool :=
  match s with
  | EmptyString => false
  | String _ _ => true
  end.

(** The tail [\/([^/]+)$] of both expressions: a slash, then one or more
    characters other than a slash up to the end of the input.  Returns the
    characters after the slash. *)
Definition match_slash_segment_end (s : string) : option string :=
  match s with
  | String c rest =>
      if is_slash c && nonempty rest && no_slash rest then Some rest else None
  | EmptyString => None
  end.

(** [/^(.+)\/([^/]+)$/] matched from the start of [s], the way a
    backtracking matcher does it: [.+] takes one character, then first
    tries to take more (it is greedy) and only then to stop here and match
    the rest.  Returns the two groups. *)
Fixpoint match_sub (s : string) : option (string * string) :=
  match s with
  | EmptyString => None
  | String c rest =>
      if at_line_terminator s then None
      else
        match match_sub rest with
        | Some (serverUrl, username) => Some (String c serverUrl, username)
        | None =>
            match match_slash_segment_end rest with
            | Some username => Some (String c EmptyString, username)
            | None => None
            end
        end
  end.

(** [([^/]+\/[^/]+)$] matched at the start of [s]: the first [[^/]+] takes
    one character, then more if it can, else stops.  Returns the text of
    the match. *)
Fixpoint match_repo_here (s : string) : option string :=
  match s with
  | EmptyString => None
  | String c rest =>
      if is_slash c then None
      else
        match match_repo_here rest with
        | Some m => Some (String c m)
        | None =>
            match match_slash_segment_end rest with
            | Some name => Some (String c (String "/" name))
            | None => None
            end
        end
  end.

(** [projectPath.match(/([^/]+\/[^/]+)$/)]: the expression is not anchored
    at the start, so the match is searched from each position in turn and
    the leftmost one wins.  Returns group 1. *)
Fixpoint match_repoFullName (s : string) : option string :=
  match match_repo_here s with
  | Some m => Some m
  | None =>
      match s with
      | EmptyString => None
      | String _ rest => match_repoFullName rest
      end
  end.

(** [$]-patterns of a replacement string, for a pattern without groups:
    [$$], [$&], [$`] and [$']; any other [$] stands for itself. *)
Fixpoint get_substitution (matched before after replacement : string) : string :=
  match replacement with
  | EmptyString => EmptyString
  | String c rest =>
      if Ascii.eqb c "$" then
        match rest with
        | String d rest' =>
            if Ascii.eqb d "$" then
              String "$" (get_substitution matched before after rest')
            else if Ascii.eqb d "&" then
              matched +:+ get_substitution matched before after rest'
            else if Ascii.eqb d "`" then
              before +:+ get_substitution matched before after rest'
            else if Ascii.eqb d "'" then
              after +:+ get_substitution matched before after rest'
            else String c (get_substitution matched before after rest)
        | EmptyString => String c EmptyString
        end
      else String c (get_substitution matched before after rest)
  end.

Definition path_placeholder : string := "{{path}}".

Fixpoint string_drop (n : nat) (s : string) : string :=
  match n, s with
  | O, _ => s
  | S n', String _ rest => string_drop n' rest
  | S _, EmptyString => EmptyString
  end.

(** [message.replace(/{{path}}/g, replacement)], scanning left to right.
    [before] is the part of the message already passed, [skip] the number
    of characters of a match still to be stepped over. *)
Fixpoint replace_placeholder (skip : nat) (before s replacement : string) : string :=
  match s with
  | EmptyString => EmptyString
  | String c rest =>
      match skip with
      | S skip' =>
          replace_placeholder skip' (before +:+ String c EmptyString) rest replacement
      | O =>
          if String.prefix path_placeholder s then
            get_substitution path_placeholder before
                             (string_drop (String.length path_placeholder) s)
                             replacement
            +:+ replace_placeholder (String.length path_placeholder - 1)
                                    (before +:+ String c EmptyString) rest replacement
          else
            String c (replace_placeholder O (before +:+ String c EmptyString)
                                          rest replacement)
      end
  end.

(** [encodeURIComponent] on a UTF-8 byte string: letters, digits and
    [-_.!~*'()] stay, every other byte becomes [%XX]. *)
Definition is_unreserved (c : ascii) : bool :=
  let n := N_of_ascii c in
  ((65 <=? n) && (n <=? 90) || (97 <=? n) && (n <=? 122)
   || (48 <=? n) && (n <=? 57))%N
  || existsb (Ascii.eqb c)
       ["-"; "_"; "."; "!"; "~"; "*"; "'"; "("; ")"]%char.

Definition hex_digit (n : N) : ascii :=
  match String.get (N.to_nat n) "0123456789ABCDEF" with
  | Some c => c
  | None => "0"%char
  end.

Fixpoint encodeURIComponent (s : string) : string :=
  match s with
  | EmptyString => EmptyString
  | String c rest =>
      if is_unreserved c then String c (encodeURIComponent rest)
      else
        let n := N_of_ascii c in
        String "%" (String (hex_digit (n / 16)) (String (hex_digit (n mod 16))
          (encodeURIComponent rest)))
  end.

(** An object literal [{ ...fields, key: value }]: an existing key keeps its
    place and takes the new value, a new key goes last. *)
Fixpoint set_field {V} (key : string) (value : V) (fields : list (string * V))
  : list (string * V) :=
  match fields with
  | [] => [(key, value)]
  | (k, v) :: rest =>
      if String.eqb k key then (k, value) :: rest
      else (k, v) :: set_field key value rest
  end.

(** ** giteaHelper.js *)

(** Line 8. *)
Definition tokenExpirationMargin : Z := 5 * 60 * 1000.

(** Lines 10-18: [request({ accessToken, serverUrl }, options)]. *)
Definition request (accessToken serverUrl : string) (options : Options.t) : M Body.t :=
  networkSvc_request
    (Options.mk (Options.method options)
                (serverUrl +:+ "/api/v1/" +:+ Options.url options)
                (set_field "Authorization" ("Bearer " +:+ accessToken)
                           (Options.headers options))
                (Options.params options)
                (Options.body options)).

(** Lines 20-23.  Reading [.replace] off a setting that is not there
    raises. *)
Definition getCommitMessage (name path : string) : M string := fun w =>
  match git w !! name with
  | None =>
      (Throw (TypeError "Cannot read properties of undefined (reading 'replace')"), w)
  | Some message => (Ok (replace_placeholder O "" message path), w)
  end.

(** Line 28. *)
Definition subPrefix : string := "gt".

(** [err.status !== 404] *)
Definition status_is_not_404 (err : JsError) : bool :=
  match status err with
  | Some st => negb (st =? 404)
  | None => true
  end.

(** The options of the profile lookup (lines 32-34). *)
Definition profileOptions (serverUrl username : string) : Options.t :=
  Options.mk None (serverUrl +:+ "/api/v1/users/" +:+ username) [] [] [].

(** Lines 29-48: the resolver registered with
    [userSvc.setInfoResolver('gitea', subPrefix, ...)].  Destructuring the
    [null] of a failed match raises inside the [try]. *)
Definition infoResolver (sub : string) : M UserInfo.t :=
  try_catch
    (match match_sub sub with
     | None => throw (TypeError "object null is not iterable")
     | Some (serverUrl, username) =>
         user <- networkSvc_request (profileOptions serverUrl username) ;;
         let uniqueSub := serverUrl +:+ "/" +:+ Body.username user in
         ret (UserInfo.mk (subPrefix +:+ ":" +:+ uniqueSub)
                          (Body.username user)
                          (js_or (Body.avatar_url user) (JsString "")))
     end)
    (fun err =>
       if status_is_not_404 err then throw (Error "RETRY")
       else throw err).

(** [sub && uniqueSub !== sub], for a [sub] that is [null] or a string. *)
Definition sub_mismatch (sub : option string) (uniqueSub : string) : bool :=
  match sub with
  | None => false
  | Some s => negb (String.eqb s "") && negb (String.eqb uniqueSub s)
  end.

(** Lines 60-97 of [startOauth2]: the statement that sets [tokenBody],
    either through the authorization-code flow or, when [silent], by
    exchanging the refresh token. *)
Definition exchangeToken
    (serverUrl applicationId applicationSecret : string)
    (silent : bool) (refreshToken : JsVal) : M Body.t :=
  redirect_uri <- constants_oauth2RedirectUri ;;
  if negb silent then
    (* Get an OAuth2 code *)
    code <- networkSvc_startOauth2
              (serverUrl +:+ "/login/oauth/authorize")
              [("client_id", JsString applicationId);
               ("response_type", JsString "code");
               ("redirect_uri", JsString redirect_uri)]
              silent ;;
    (* Exchange code with token *)
    networkSvc_request
      (Options.mk (Some "POST") (serverUrl +:+ "/login/oauth/access_token") [] []
         [("client_id", JsString applicationId);
          ("client_secret", JsString applicationSecret);
          ("code", JsString code);
          ("grant_type", JsString "authorization_code");
          ("redirect_uri", JsString redirect_uri)])
  else
    (* Exchange refreshToken with token *)
    networkSvc_request
      (Options.mk (Some "POST") (serverUrl +:+ "/login/oauth/access_token") [] []
         [("client_id", JsString applicationId);
          ("client_secret", JsString applicationSecret);
          ("refresh_token", refreshToken);
          ("grant_type", JsString "refresh_token");
          ("redirect_uri", JsString redirect_uri)]).

(** The options of the call on the user info endpoint (lines 102-104). *)
Definition userOptions : Options.t := Options.mk None "user" [] [] [].

(** Lines 56-132.  [sub] defaults to [null] ([None]), [silent] to [false],
    [refreshToken] to [undefined]; callers here pass them all. *)
Definition startOauth2
    (serverUrl applicationId applicationSecret : string)
    (sub : option string) (silent : bool) (refreshToken : JsVal) : M Token.t :=
  tokenBody <- exchangeToken serverUrl applicationId applicationSecret
                             silent refreshToken ;;
  let accessToken := Body.access_token tokenBody in
  (* Call the user info endpoint *)
  user <- request accessToken serverUrl userOptions ;;
  let uniqueSub := serverUrl +:+ "/" +:+ Body.username user in
  userSvc_addUserInfo
    (UserInfo.mk (subPrefix +:+ ":" +:+ uniqueSub)
                 (Body.username user)
                 (js_or (Body.avatar_url user) (JsString ""))) ;;
  (* Check the returned sub consistency *)
  if sub_mismatch sub uniqueSub then
    throw (Error "Gitea account ID not expected.")
  else
    (* Build token object including scopes and sub *)
    date_now <- Date_now ;;
    let token :=
      Token.mk accessToken
               (Body.username user)
               applicationId
               applicationSecret
               (Body.refresh_token tokenBody)
               (num_add date_now (num_mul (Body.expires_in tokenBody) 1000))
               serverUrl
               uniqueSub in
    (* Add token to gitea tokens *)
    dispatch_addGiteaToken token ;;
    ret token.

(** Lines 134-173.  Reading [expiresOn] off a stored entry that is not
    there raises. *)
Definition refreshToken (token : Token.t) : M Token.t :=
  let serverUrl := Token.serverUrl token in
  let applicationId := Token.applicationId token in
  let applicationSecret := Token.applicationSecret token in
  let sub := Token.sub token in
  tokensBySub <- getters_giteaTokensBySub ;;
  match tokensBySub !! sub with
  | None =>
      throw (TypeError "Cannot read properties of undefined (reading 'expiresOn')")
  | Some lastToken =>
      if negb (num_truthy (Token.expiresOn lastToken)) then
        modal_open "providerRedirection" "Gitea" ;;
        startOauth2 serverUrl applicationId applicationSecret (Some sub)
                    false JsUndefined
      else
        date_now <- Date_now ;;
        (* lastToken is not expired *)
        if num_gt (Token.expiresOn lastToken) (date_now + tokenExpirationMargin) then
          ret lastToken
        else
          (* existing token is about to expire.
             Try to get a new token in background *)
          try_catch
            (startOauth2 serverUrl applicationId applicationSecret (Some sub)
                         true (Token.refreshToken lastToken))
            (fun err =>
               (* If it fails try to popup a window *)
               is_offline <- state_offline ;;
               if is_offline then throw err
               else
                 modal_open "providerRedirection" "Gitea" ;;
                 startOauth2 serverUrl applicationId applicationSecret (Some sub)
                             false JsUndefined)
  end.

(** Lines 174-178. *)
Definition addAccount (serverUrl applicationId applicationSecret : string)
    (sub : option string) : M Token.t :=
  token <- startOauth2 serverUrl applicationId applicationSecret sub
                       false JsUndefined ;;
  badgeSvc_addBadge "addGiteaAccount" ;;
  ret token.

(** Lines 183-189.  Destructuring the [null] of a failed match raises. *)
Definition getProjectId (projectPath : string) (projectId : JsVal) : M JsVal :=
  if truthy projectId then ret projectId
  else
    match match_repoFullName projectPath with
    | None => throw (TypeError "object null is not iterable")
    | Some repoFullName => ret (JsString repoFullName)
    end.

(** Lines 194-207. *)
Definition getTree (token : Token.t) (projectId : JsVal) (branch : string) : M Body.t :=
  refreshedToken <- refreshToken token ;;
  request (Token.accessToken refreshedToken) (Token.serverUrl refreshedToken)
    (Options.mk None
       ("repos/" +:+ to_string projectId +:+ "/git/trees/" +:+ branch)
       []
       [("recursive", JsBool true); ("per_page", JsNumber 9999)]
       []).

(** Lines 212-226. *)
Definition getCommits (token : Token.t) (projectId : JsVal) (branch path : string)
  : M Body.t :=
  refreshedToken <- refreshToken token ;;
  request (Token.accessToken refreshedToken) (Token.serverUrl refreshedToken)
    (Options.mk None
       ("repos/" +:+ to_string projectId +:+ "/commits")
       []
       [("sha", JsString branch); ("path", JsString path)]
       []).

(** [utils.encodeBase64(content)] *)
Definition utils_encodeBase64 (content : string) : M string := fun w =>
  (Ok (encodeBase64 (env w) content), w).

(** [utils.decodeBase64(content)] *)
Definition utils_decodeBase64 (content : string) : M string := fun w =>
  match decodeBase64 (env w) content with
  | inl e => (Throw e, w)
  | inr data => (Ok data, w)
  end.

(** Lines 232-251. *)
Definition uploadFile (token : Token.t) (projectId : JsVal) (branch path content : string)
    (sha : JsVal) : M Body.t :=
  refreshedToken <- refreshToken token ;;
  message <- getCommitMessage
               (if truthy sha then "updateFileMessage" else "createFileMessage")
               path ;;
  content64 <- utils_encodeBase64 content ;;
  request (Token.accessToken refreshedToken) (Token.serverUrl refreshedToken)
    (Options.mk (Some (if truthy sha then "PUT" else "POST"))
       ("repos/" +:+ to_string projectId +:+ "/contents/" +:+ encodeURIComponent path)
       []
       []
       [("message", JsString message);
        ("content", JsString content64);
        ("sha", sha);
        ("branch", JsString branch)]).

(** Lines 256-273. *)
Definition removeFile (token : Token.t) (projectId : JsVal) (branch path : string)
    (sha : JsVal) : M Body.t :=
  refreshedToken <- refreshToken token ;;
  message <- getCommitMessage "deleteFileMessage" path ;;
  request (Token.accessToken refreshedToken) (Token.serverUrl refreshedToken)
    (Options.mk (Some "DELETE")
       ("repos/" +:+ to_string projectId +:+ "/contents/" +:+ encodeURIComponent path)
       []
       []
       [("message", JsString message);
        ("sha", sha);
        ("branch", JsString branch)]).

(** Lines 278-293. *)
Definition downloadFile (token : Token.t) (projectId : JsVal) (branch path : string)
  : M Download.t :=
  refreshedToken <- refreshToken token ;;
  res <- request (Token.accessToken refreshedToken) (Token.serverUrl refreshedToken)
           (Options.mk None
              ("repos/" +:+ to_string projectId +:+ "/contents/"
               +:+ encodeURIComponent path)
              []
              [("ref", JsString branch)]
              []) ;;
  data <- utils_decodeBase64 (Body.content res) ;;
  ret (Download.mk (Body.sha res) data).

(** ** Reading the trace *)

(** The calls made between two worlds of one run. *)
Definition events_since (w w' : World) : list Event :=
  drop (length (trace w)) (trace w').

(** Every run of [m] appends calls to the trace, all of them satisfying
    [P], and leaves the environment alone. *)
Definition appends {A} (P : Event -> bool) (m : M A) : Prop :=
  forall w, exists d,
    trace (snd (m w)) = trace w ++ d /\ forallb P d = true
    /\ env (snd (m w)) = env w.

(** [fields[key]] *)
Fixpoint get_field {V} (key : string) (fields : list (string * V)) : option V :=
  match fields with
  | [] => None
  | (k, v) :: rest => if String.eqb k key then Some v else get_field key rest
  end.

(** A call that goes out to the network: the OAuth2 redirect or popup, or
    an HTTP request. *)
Definition is_network_call (e : Event) : bool :=
  match e with
  | EvStartOauth2 _ _ _ | EvRequest _ => true
  | _ => false
  end.

Definition is_modal (e : Event) : bool :=
  match e with
  | EvModalOpen _ _ => true
  | _ => false
  end.

Definition is_token_write (e : Event) : bool :=
  match e with
  | EvAddGiteaToken _ => true
  | _ => false
  end.

(** The interactive authorization step: [networkSvc.startOauth2] called
    with [silent = false]. *)
Definition is_interactive_authorization (e : Event) : bool :=
  match e with
  | EvStartOauth2 _ _ silent => negb silent
  | _ => false
  end.

Definition is_refresh_grant (options : Options.t) : bool :=
  match get_field "grant_type" (Options.body options) with
  | Some (JsString g) => String.eqb g "refresh_token"
  | _ => false
  end.

(** The silent exchange: a request whose grant is the refresh token. *)
Definition is_silent_exchange (e : Event) : bool :=
  match e with
  | EvRequest options => is_refresh_grant options
  | _ => false
  end.

(** The calls a run of [startOauth2] may make, for a given [silent]: no
    modal and no badge; the interactive step only when not silent, the
    refresh-token exchange only when silent. *)
Definition startOauth2_event (silent : bool) (e : Event) : bool :=
  match e with
  | EvStartOauth2 _ _ s => negb silent && negb s
  | EvRequest options => implb (is_refresh_grant options) silent
  | EvAddUserInfo _ | EvAddGiteaToken _ => true
  | EvModalOpen _ _ | EvAddBadge _ => false
  end.

(** ** The path as the specification reads it *)

(** [s.split('/')] *)
Fixpoint split_slash (s : string) : list string :=
  match s with
  | EmptyString => [EmptyString]
  | String c rest =>
      if is_slash c then EmptyString :: split_slash rest
      else
        match split_slash rest with
        | segment :: segments => String c segment :: segments
        | [] => [String c EmptyString]
        end
  end.

(** Whether a list of segments is two segments, neither empty. *)
Definition two_nonempty (segments : list string) : bool :=
  match segments with
  | [owner; name] => nonempty owner && nonempty name
  | _ => false
  end.

(** [segments.join('/')] *)
Fixpoint join_slash (segments : list string) : string :=
  match segments with
  | [] => ""
  | [segment] => segment
  | segment :: rest => segment +:+ String "/" (join_slash rest)
  end.

(** The last two elements of a list, when it has two. *)
Fixpoint last_two {A} (l : list A) : option (A * A) :=
  match l with
  | [] | [_] => None
  | [a; b] => Some (a, b)
  | _ :: rest => last_two rest
  end.

(** The last two [/]-delimited segments of a path, joined again; defined
    when both are there and neither is empty. *)
Definition last_two_segments (projectPath : string) : option string :=
  match last_two (split_slash projectPath) with
  | Some (owner, name) =>
      if nonempty owner && nonempty name then Some (owner +:+ "/" +:+ name)
      else None
  | None => None
  end.

(** ** Sample worlds *)

Definition sample_body (lifetime : JsNum) (user : string) : Body.t :=
  Body.mk "a2" (JsString "r2") lifetime user JsUndefined (JsString "h1") "aGVsbG8=".

(** A Gitea server and a user, with switches: the server rejects the
    refresh-token exchange, the user dismisses the modal, the network is
    found to be down; the lifetime the server grants and the account it
    reports.  The codec is a stand-in. *)
Definition sample_env (refresh_rejected modal_dismissed offline_found : bool)
    (lifetime : JsNum) (user : string) : Env :=
  mkEnv "https://stackedit.example/oauth2/callback"
        (fun text => text)
        (fun text => inr text)
        (fun _ options =>
           mkReply (if refresh_rejected && is_refresh_grant options
                    then inl (Rejection (Some 400) "invalid_grant")
                    else inr (sample_body lifetime user))
                   120 offline_found)
        (fun _ _ _ _ => mkReply (inr "c0de") 5000 offline_found)
        (fun _ _ _ =>
           mkReply (if modal_dismissed then inl (Rejection None "dismissed")
                    else inr tt)
                   2000 offline_found).

(** A server that answers every request with the given status. *)
Definition failing_env (st : option Z) : Env :=
  mkEnv "https://stackedit.example/oauth2/callback"
        (fun text => text)
        (fun text => inr text)
        (fun _ _ => mkReply (inl (Rejection st "request failed")) 120 false)
        (fun _ _ _ _ => mkReply (inl (Rejection None "popup closed")) 5000 false)
        (fun _ _ _ => mkReply (inr tt) 2000 false).

Definition alice_sub : string := "https://git.example.com/alice".

(** Alice's stored token, with the given [expiresOn]. *)
Definition alice_token (expiresOn : JsNum) : Token.t :=
  Token.mk "a1" "alice" "app-id" "app-secret" (JsString "r1") expiresOn
           "https://git.example.com" alice_sub.

Definition sample_settings : gmap string string :=
  <["createFileMessage" := "Create {{path}} from StackEdit"]>
  (<["updateFileMessage" := "Update {{path}} from StackEdit"]>
  (<["deleteFileMessage" := "Delete {{path}} from StackEdit"]> ∅)).

(** The clock of the sample worlds: 2026-11-02T00:00:00Z. *)
Definition sample_now : N := 1793577600000.

(** A world whose store holds the given token under Alice's [sub]. *)
Definition sample_world (e : Env) (stored : Token.t) : World :=
  mkWorld e (<[alice_sub := stored]> ∅) false sample_settings sample_now [].

(** A world whose store holds no token. *)
Definition empty_world (e : Env) : World :=
  mkWorld e ∅ false sample_settings sample_now [].

(** ** Further readings of strings and calls *)

(** Every character of [s] satisfies [P]. *)
Fixpoint string_forall (P : ascii -> bool) (s : string) : bool :=
  match s with
  | EmptyString => true
  | String c rest => P c && string_forall P rest
  end.

Definition is_dollar (c : ascii) : bool := Ascii.eqb c "$".

Definition is_open_brace (c : ascii) : bool := Ascii.eqb c "{".

(** What [encodeURIComponent] lets through or produces: an unreserved
    character or the percent sign. *)
Definition is_uri_safe (c : ascii) : bool := is_unreserved c || Ascii.eqb c "%".

Definition any_event (e : Event) : bool := true.

Definition is_badge (e : Event) : bool :=
  match e with
  | EvAddBadge _ => true
  | _ => false
  end.

(** A request made on behalf of [token]: it goes to the API of the token's
    server and carries the token's access token as bearer. *)
Definition authenticated_by (token : Token.t) (e : Event) : bool :=
  match e with
  | EvRequest options =>
      String.prefix (Token.serverUrl token +:+ "/api/v1/repos/") (Options.url options)
      && match get_field "Authorization" (Options.headers options) with
         | Some h => String.eqb h ("Bearer " +:+ Token.accessToken token)
         | None => false
         end
  | _ => false
  end.

Definition is_not_dollar (c : ascii) : bool := negb (is_dollar c).

Definition is_not_open_brace (c : ascii) : bool := negb (is_open_brace c).

(** [pieces.join(separator)] *)
Fixpoint join_with (separator : string) (pieces : list string) : string :=
  match pieces with
  | [] => ""
  | [piece] => piece
  | piece :: rest => piece +:+ separator +:+ join_with separator rest
  end.

(** The value of a hexadecimal digit, and of a pair of them. *)
Definition hex_value (c : ascii) : N :=
  let n := N_of_ascii c in
  if ((48 <=? n) && (n <=? 57))%N then (n - 48)%N
  else if ((65 <=? n) && (n <=? 70))%N then (n - 55)%N
  else 0%N.

Definition percent_value (high low : ascii) : N :=
  (16 * hex_value high + hex_value low)%N.

(** The canonical binary64 form of an integer below 2^53: the mantissa is
    shifted up to 53 bits. *)
Definition canonical_double (z : Z) : spec_float :=
  S754_finite false (Z.to_pos (z * 2 ^ (52 - Z.log2 z))) (Z.log2 z - 52).

(** * Properties *)

(** ** Doubles that hold integers *)

Lemma digits2_pos_log2 (p : positive) :
  Zpos (digits2_pos p) = Z.log2 (Zpos p) + 1.
Proof.
  induction p as [p IH | p IH |]; simpl; try reflexivity;
    rewrite Pos2Z.inj_succ, IH; destruct p; simpl; lia.
Qed.

Lemma Zdigits2_log2 (z : Z) : 0 < z -> Zdigits2 z = Z.log2 z + 1.
Proof. destruct z; try lia. intros _. apply digits2_pos_log2. Qed.

Lemma shr_1_double (m : Z) :
  shr_1 (Build_shr_record (2 * m) false false) = Build_shr_record m false false.
Proof. destruct m; reflexivity. Qed.

Lemma iter_pos_shr_1 (n : positive) :
  forall m : Z,
    SpecFloat.iter_pos shr_1 n (Build_shr_record (m * 2 ^ Zpos n) false false)
    = Build_shr_record m false false.
Proof.
  induction n as [n IH | n IH |]; intros m.
  - cbn [SpecFloat.iter_pos].
    assert (H : m * 2 ^ Zpos n~1 = 2 * ((m * 2 ^ Zpos n) * 2 ^ Zpos n)).
    { assert (Hp : 2 ^ Zpos n~1 = 2 * (2 ^ Zpos n * 2 ^ Zpos n)).
      { rewrite <- Z.pow_add_r, <- Z.pow_succ_r by lia. f_equal. lia. }
      rewrite Hp. ring. }
    rewrite H, shr_1_double, IH, IH. reflexivity.
  - cbn [SpecFloat.iter_pos].
    assert (H : m * 2 ^ Zpos n~0 = (m * 2 ^ Zpos n) * 2 ^ Zpos n).
    { assert (Hp : 2 ^ Zpos n~0 = 2 ^ Zpos n * 2 ^ Zpos n).
      { rewrite <- Z.pow_add_r by lia. f_equal. lia. }
      rewrite Hp. ring. }
    rewrite H, IH, IH. reflexivity.
  - cbn [SpecFloat.iter_pos]. change (2 ^ 1) with 2. rewrite Z.mul_comm. apply shr_1_double.
Qed.

(** Rounding a 53-bit mantissa followed by [k] zero bits is exact. *)
Lemma binary_round_aux_exact (s : bool) (q k e : Z) :
  2 ^ 52 <= q < 2 ^ 53 -> 0 <= k -> -1074 <= e + k <= 971 ->
  binary_round_aux 53 1024 s (q * 2 ^ k) e loc_Exact
  = S754_finite s (Z.to_pos q) (e + k).
Proof.
  intros Hq Hk He.
  assert (Hq0 : 0 < q) by (pose proof (Z.pow_pos_nonneg 2 52); lia).
  assert (Hlogq : Z.log2 q = 52) by (apply Z.log2_unique; lia).
  assert (Hlog : Z.log2 (q * 2 ^ k) = k + 52)
    by (rewrite Z.log2_mul_pow2 by lia; lia).
  assert (Hpos : 0 < q * 2 ^ k) by (pose proof (Z.pow_pos_nonneg 2 k); nia).
  unfold binary_round_aux, shr_fexp.
  rewrite (Zdigits2_log2 _ Hpos), Hlog.
  assert (Hfexp : fexp 53 1024 (k + 52 + 1 + e) = e + k)
    by (unfold fexp, emin; lia).
  rewrite Hfexp. replace (e + k - e) with k by lia.
  assert (Hshr : shr (shr_record_of_loc (q * 2 ^ k) loc_Exact) e k
                 = (Build_shr_record q false false, e + k)).
  { unfold shr, shr_record_of_loc. destruct k as [| n | n]; try lia.
    - rewrite Z.pow_0_r, Z.mul_1_r. f_equal. lia.
    - now rewrite iter_pos_shr_1. }
  rewrite Hshr. cbn [shr_m loc_of_shr_record round_nearest_even].
  rewrite (Zdigits2_log2 _ Hq0), Hlogq.
  assert (Hfexp2 : fexp 53 1024 (52 + 1 + (e + k)) = e + k)
    by (unfold fexp, emin; lia).
  rewrite Hfexp2, Z.sub_diag. cbn [shr shr_record_of_loc shr_m].
  destruct q as [| p | p]; try lia.
  assert (Hle : (e + k <=? 1024 - 53) = true) by (apply Z.leb_le; lia).
  now rewrite Hle.
Qed.

Lemma log2_bounds (z : Z) :
  0 < z < 2 ^ 53 ->
  0 <= Z.log2 z <= 52 /\ 2 ^ Z.log2 z <= z < 2 ^ (Z.log2 z + 1).
Proof.
  intros Hz. pose proof (Z.log2_spec z ltac:(lia)) as Hspec.
  pose proof (Z.log2_nonneg z).
  assert (Z.log2 z < 53) by (apply Z.log2_lt_pow2; lia).
  replace (Z.succ (Z.log2 z)) with (Z.log2 z + 1) in Hspec by lia. lia.
Qed.

Lemma canonical_mantissa_bounds (z : Z) :
  0 < z < 2 ^ 53 -> 2 ^ 52 <= z * 2 ^ (52 - Z.log2 z) < 2 ^ 53.
Proof.
  intros Hz. destruct (log2_bounds z Hz) as [Hl [Hlo Hhi]].
  assert (H52 : 2 ^ 52 = 2 ^ Z.log2 z * 2 ^ (52 - Z.log2 z))
    by (rewrite <- Z.pow_add_r by lia; f_equal; lia).
  assert (H53 : 2 ^ 53 = 2 ^ (Z.log2 z + 1) * 2 ^ (52 - Z.log2 z))
    by (rewrite <- Z.pow_add_r by lia; f_equal; lia).
  assert (Hp : 0 < 2 ^ (52 - Z.log2 z)) by (apply Z.pow_pos_nonneg; lia).
  rewrite H52, H53. split.
  - apply Z.mul_le_mono_nonneg_r; lia.
  - apply Z.mul_lt_mono_pos_r; lia.
Qed.

Lemma iter_xO_pow (p d : positive) :
  Zpos (Pos.iter xO p d) = Zpos p * 2 ^ Zpos d.
Proof.
  induction d as [| d IH] using Pos.peano_ind.
  - simpl. lia.
  - rewrite Pos.iter_succ, Pos2Z.inj_xO, IH, Pos2Z.inj_succ, Z.pow_succ_r by lia.
    ring.
Qed.

Lemma shl_align_fst (m : positive) (e e' : Z) :
  e' <= e -> Zpos (fst (shl_align m e e')) = Zpos m * 2 ^ (e - e').
Proof.
  intros Hle. unfold shl_align.
  destruct (e' - e) as [| d | d] eqn:Hd; try lia; simpl fst.
  - replace (e - e') with 0 by lia. lia.
  - rewrite iter_xO_pow. f_equal. f_equal. lia.
Qed.

(** An integer below 2^53 is a double as it is. *)
Lemma double_of_Z_canonical (z : Z) :
  0 < z < 2 ^ 53 -> double_of_Z z = canonical_double z.
Proof.
  intros Hz. destruct (log2_bounds z Hz) as [Hl _].
  pose proof (canonical_mantissa_bounds z Hz) as Hq.
  destruct z as [| p | p]; try lia.
  unfold double_of_Z, binary_normalize, binary_round.
  rewrite digits2_pos_log2.
  assert (Hfexp : fexp 53 1024 (Z.log2 (Zpos p) + 1 + 0) = Z.log2 (Zpos p) - 52)
    by (unfold fexp, emin; lia).
  rewrite Hfexp.
  destruct (shl_align p 0 (Z.log2 (Zpos p) - 52)) as [mz ez] eqn:Hal.
  assert (Hmz : Zpos mz = Zpos p * 2 ^ (52 - Z.log2 (Zpos p))).
  { pose proof (shl_align_fst p 0 (Z.log2 (Zpos p) - 52) ltac:(lia)) as H.
    rewrite Hal in H. cbn [fst] in H. rewrite H. f_equal. f_equal. lia. }
  assert (Hez : ez = Z.log2 (Zpos p) - 52).
  { unfold shl_align in Hal.
    destruct (Z.log2 (Zpos p) - 52 - 0) eqn:Hd; try lia;
      injection Hal as _ <-; try lia; reflexivity. }
  subst ez.
  replace (Zpos mz) with (Zpos mz * 2 ^ 0) by (rewrite Z.pow_0_r; lia).
  rewrite binary_round_aux_exact by (rewrite ?Hmz; lia).
  unfold canonical_double. rewrite Hmz. f_equal. lia.
Qed.

Lemma SFmul_canonical (a b : Z) :
  0 < a -> 0 < b -> a * b < 2 ^ 53 ->
  SFmul 53 1024 (canonical_double a) (canonical_double b)
  = canonical_double (a * b).
Proof.
  intros Ha Hb Hab.
  assert (Ha53 : 0 < a < 2 ^ 53) by nia.
  assert (Hb53 : 0 < b < 2 ^ 53) by nia.
  assert (Hc53 : 0 < a * b < 2 ^ 53) by nia.
  destruct (log2_bounds a Ha53) as [Hla _].
  destruct (log2_bounds b Hb53) as [Hlb _].
  destruct (log2_bounds (a * b) Hc53) as [Hlc _].
  pose proof (canonical_mantissa_bounds a Ha53) as Hqa.
  pose proof (canonical_mantissa_bounds b Hb53) as Hqb.
  pose proof (canonical_mantissa_bounds (a * b) Hc53) as Hqc.
  pose proof (Z.log2_mul_below a b Ha Hb) as Hbelow.
  unfold canonical_double at 1 2. cbn [SFmul xorb].
  rewrite Pos2Z.inj_mul, !Z2Pos.id by lia.
  set (k := 52 - Z.log2 a - Z.log2 b + Z.log2 (a * b)).
  assert (Hprod : a * 2 ^ (52 - Z.log2 a) * (b * 2 ^ (52 - Z.log2 b))
                  = (a * b * 2 ^ (52 - Z.log2 (a * b))) * 2 ^ k).
  { assert (Hp : 2 ^ (52 - Z.log2 a) * 2 ^ (52 - Z.log2 b)
                 = 2 ^ (52 - Z.log2 (a * b)) * 2 ^ k)
      by (rewrite <- !Z.pow_add_r by lia; f_equal; lia).
    transitivity (a * b * (2 ^ (52 - Z.log2 a) * 2 ^ (52 - Z.log2 b)));
      [ ring | rewrite Hp; ring ]. }
  rewrite Hprod, binary_round_aux_exact by lia.
  unfold canonical_double. f_equal. lia.
Qed.

Lemma SFadd_canonical (a b : Z) :
  0 < a -> 0 < b -> a + b < 2 ^ 53 ->
  SFadd 53 1024 (canonical_double a) (canonical_double b)
  = canonical_double (a + b).
Proof.
  intros Ha Hb Hab.
  assert (Ha53 : 0 < a < 2 ^ 53) by lia.
  assert (Hb53 : 0 < b < 2 ^ 53) by lia.
  assert (Hc53 : 0 < a + b < 2 ^ 53) by lia.
  destruct (log2_bounds a Ha53) as [Hla _].
  destruct (log2_bounds b Hb53) as [Hlb _].
  destruct (log2_bounds (a + b) Hc53) as [Hlc _].
  pose proof (canonical_mantissa_bounds a Ha53) as Hqa.
  pose proof (canonical_mantissa_bounds b Hb53) as Hqb.
  pose proof (canonical_mantissa_bounds (a + b) Hc53) as Hqc.
  assert (Hma : Z.log2 a <= Z.log2 (a + b)) by (apply Z.log2_le_mono; lia).
  assert (Hmb : Z.log2 b <= Z.log2 (a + b)) by (apply Z.log2_le_mono; lia).
  unfold canonical_double at 1 2. cbn [SFadd cond_Zopp].
  set (ez := Z.min (Z.log2 a - 52) (Z.log2 b - 52)).
  rewrite !shl_align_fst, !Z2Pos.id by lia.
  assert (Hsa : a * 2 ^ (52 - Z.log2 a) * 2 ^ (Z.log2 a - 52 - ez) = a * 2 ^ (- ez)).
  { rewrite <- Z.mul_assoc, <- Z.pow_add_r by lia. f_equal. f_equal. lia. }
  assert (Hsb : b * 2 ^ (52 - Z.log2 b) * 2 ^ (Z.log2 b - 52 - ez) = b * 2 ^ (- ez)).
  { rewrite <- Z.mul_assoc, <- Z.pow_add_r by lia. f_equal. f_equal. lia. }
  rewrite Hsa, Hsb, <- Z.mul_add_distr_r.
  set (k := Z.log2 (a + b) - 52 - ez).
  assert (Hsum : (a + b) * 2 ^ (- ez)
                 = ((a + b) * 2 ^ (52 - Z.log2 (a + b))) * 2 ^ k).
  { rewrite <- Z.mul_assoc, <- Z.pow_add_r by lia. f_equal. f_equal. lia. }
  assert (Hpos : 0 < (a + b) * 2 ^ (- ez))
    by (pose proof (Z.pow_pos_nonneg 2 (- ez)); nia).
  destruct ((a + b) * 2 ^ (- ez)) as [| s | s] eqn:Hs; try lia.
  unfold binary_normalize, binary_round.
  rewrite digits2_pos_log2.
  assert (Hlog : Z.log2 (Zpos s) = Z.log2 (a + b) - ez).
  { rewrite <- Hs, Z.log2_mul_pow2 by lia. lia. }
  rewrite Hlog.
  assert (Hfexp : fexp 53 1024 (Z.log2 (a + b) - ez + 1 + ez) = Z.log2 (a + b) - 52)
    by (unfold fexp, emin; lia).
  rewrite Hfexp.
  assert (Hal : shl_align s ez (Z.log2 (a + b) - 52) = (s, ez)).
  { unfold shl_align. destruct (Z.log2 (a + b) - 52 - ez) eqn:Hd; try lia;
      reflexivity. }
  rewrite Hal, Hsum, binary_round_aux_exact by lia.
  unfold canonical_double. f_equal. lia.
Qed.

Lemma of_double_canonical (z : Z) :
  0 < z < 2 ^ 53 -> of_double (canonical_double z) = Num z.
Proof.
  intros Hz. destruct (log2_bounds z Hz) as [Hl _].
  pose proof (canonical_mantissa_bounds z Hz) as Hq.
  unfold canonical_double, of_double. rewrite Z2Pos.id by lia.
  destruct (Z.leb_spec 0 (Z.log2 z - 52)) as [Hge | Hlt].
  - replace (Z.log2 z - 52) with 0 by lia.
    replace (52 - Z.log2 z) with 0 by lia.
    rewrite !Z.pow_0_r. f_equal. lia.
  - replace (- (Z.log2 z - 52)) with (52 - Z.log2 z) by lia.
    assert (Hp : 0 < 2 ^ (52 - Z.log2 z)) by (apply Z.pow_pos_nonneg; lia).
    rewrite Z.mod_mul, Z.div_mul by lia. simpl. f_equal. lia.
Qed.

(** Line 124 on integers: the product and the sum are exact as long as
    they stay below 2^53. *)
Lemma num_mul_exact (a k : Z) :
  0 < a -> 0 < k -> a * k < 2 ^ 53 -> num_mul (Num a) k = Num (a * k).
Proof.
  intros Ha Hk Hak. unfold num_mul, to_double.
  rewrite !double_of_Z_canonical by nia.
  rewrite SFmul_canonical by assumption.
  apply of_double_canonical. nia.
Qed.

Lemma num_add_exact (t x : Z) :
  0 <= t -> 0 < x -> t + x < 2 ^ 53 -> num_add t (Num x) = Num (t + x).
Proof.
  intros Ht Hx Htx. unfold num_add, to_double.
  rewrite (double_of_Z_canonical x) by lia.
  destruct (Z.eq_dec t 0) as [-> | Hnz].
  - simpl. apply of_double_canonical. lia.
  - rewrite (double_of_Z_canonical t) by lia.
    rewrite SFadd_canonical by lia.
    apply of_double_canonical. lia.
Qed.

(** Whatever is added to not-a-number is not a number. *)
Lemma num_add_nan (t : Z) (n : JsNum) :
  to_double n = S754_nan -> num_add t n = NaN.
Proof.
  intros Hn. unfold num_add. rewrite Hn.
  now destruct (double_of_Z t).
Qed.

Lemma num_mul_nan (n : JsNum) (k : Z) :
  to_double n = S754_nan -> to_double (num_mul n k) = S754_nan.
Proof. intros Hn. unfold num_mul. now rewrite Hn. Qed.


(** ** Runs only add to the trace *)

Lemma events_since_app (w w' : World) (d : list Event) :
  trace w' = trace w ++ d -> events_since w w' = d.
Proof.
  intros H. unfold events_since. rewrite H. apply drop_app_length.
Qed.

Lemma events_since_refl (w : World) : events_since w w = [].
Proof. apply events_since_app. now rewrite app_nil_r. Qed.

Lemma appends_ret {A} P (a : A) : appends P (ret a).
Proof. intros w. exists []. simpl. now rewrite app_nil_r. Qed.

Lemma appends_throw {A} P e : appends P (@throw A e).
Proof. intros w. exists []. simpl. now rewrite app_nil_r. Qed.

Lemma appends_bind {A B} P (m : M A) (k : A -> M B) :
  appends P m -> (forall a, appends P (k a)) -> appends P (bind m k).
Proof.
  intros Hm Hk w. unfold bind.
  destruct (Hm w) as (d1 & Ht1 & Hp1 & He1).
  destruct (m w) as [[a | e] w1]; simpl in *.
  - destruct (Hk a w1) as (d2 & Ht2 & Hp2 & He2).
    exists (d1 ++ d2). rewrite Ht2, Ht1, He2, He1, forallb_app, Hp1, Hp2.
    now rewrite app_assoc.
  - now exists d1.
Qed.

Lemma appends_try_catch {A} P (m : M A) (h : JsError -> M A) :
  appends P m -> (forall e, appends P (h e)) -> appends P (try_catch m h).
Proof.
  intros Hm Hh w. unfold try_catch.
  destruct (Hm w) as (d1 & Ht1 & Hp1 & He1).
  destruct (m w) as [[a | e] w1]; simpl in *.
  - now exists d1.
  - destruct (Hh e w1) as (d2 & Ht2 & Hp2 & He2).
    exists (d1 ++ d2). rewrite Ht2, Ht1, He2, He1, forallb_app, Hp1, Hp2.
    now rewrite app_assoc.
Qed.

Lemma appends_emit P ev : P ev = true -> appends P (emit ev).
Proof. intros H w. exists [ev]. simpl. now rewrite H. Qed.

Lemma appends_await {A} P ev (reply : list Event -> Reply A) :
  P ev = true -> appends P (await ev reply).
Proof.
  intros H w. exists [ev]. unfold await.
  destruct (outcome (reply (trace w))); simpl; now rewrite H.
Qed.

Lemma appends_networkSvc_request P options :
  P (EvRequest options) = true -> appends P (networkSvc_request options).
Proof. intros H w. unfold networkSvc_request. now apply appends_await. Qed.

Lemma appends_networkSvc_startOauth2 P url params silent :
  P (EvStartOauth2 url params silent) = true ->
  appends P (networkSvc_startOauth2 url params silent).
Proof. intros H w. unfold networkSvc_startOauth2. now apply appends_await. Qed.

Lemma appends_modal_open P type name :
  P (EvModalOpen type name) = true -> appends P (modal_open type name).
Proof. intros H w. unfold modal_open. now apply appends_await. Qed.

Lemma appends_dispatch_addGiteaToken P token :
  P (EvAddGiteaToken token) = true -> appends P (dispatch_addGiteaToken token).
Proof. intros H w. exists [EvAddGiteaToken token]. simpl. now rewrite H. Qed.

Lemma appends_read {A} P (f : World -> A) : appends P (fun w => (Ok (f w), w)).
Proof. intros w. exists []. simpl. now rewrite app_nil_r. Qed.

Create HintDb trace_db.
#[local] Hint Resolve appends_ret appends_throw appends_emit
  appends_networkSvc_request appends_networkSvc_startOauth2
  appends_modal_open appends_dispatch_addGiteaToken : trace_db.

(** Splits a computation along its binds and closes the leaves. *)
Ltac appends_tac :=
  repeat first
    [ apply appends_bind; [ | intros ? ]
    | apply appends_try_catch; [ | intros ? ]
    | apply appends_read
    | solve [ auto with trace_db ] ].

Lemma appends_exchangeToken serverUrl applicationId applicationSecret silent rt :
  appends (startOauth2_event silent)
          (exchangeToken serverUrl applicationId applicationSecret silent rt).
Proof.
  unfold exchangeToken, constants_oauth2RedirectUri.
  destruct silent; simpl; appends_tac.
Qed.

Lemma appends_request P accessToken serverUrl options :
  (forall o, Options.body o = Options.body options -> P (EvRequest o) = true) ->
  appends P (request accessToken serverUrl options).
Proof.
  intros H. unfold request. apply appends_networkSvc_request. now apply H.
Qed.

Lemma appends_startOauth2 serverUrl applicationId applicationSecret sub silent rt :
  appends (startOauth2_event silent)
          (startOauth2 serverUrl applicationId applicationSecret sub silent rt).
Proof.
  unfold startOauth2, userSvc_addUserInfo, Date_now.
  apply appends_bind; [ apply appends_exchangeToken | intros tokenBody ].
  apply appends_bind.
  { apply appends_request. intros o Ho. simpl.
    unfold is_refresh_grant. now rewrite Ho. }
  intros user. apply appends_bind; [ now apply appends_emit | intros _ ].
  destruct (sub_mismatch _ _); appends_tac.
Qed.

(** ** refreshToken *)

(** What [refreshToken] does once the stored token is known. *)
Lemma refreshToken_stored (w : World) (token lastToken : Token.t) :
  giteaTokensBySub w !! Token.sub token = Some lastToken ->
  refreshToken token w =
  (if negb (num_truthy (Token.expiresOn lastToken)) then
     modal_open "providerRedirection" "Gitea" ;;
     startOauth2 (Token.serverUrl token) (Token.applicationId token)
                 (Token.applicationSecret token) (Some (Token.sub token))
                 false JsUndefined
   else if num_gt (Token.expiresOn lastToken)
                  (Z.of_N (now w) + tokenExpirationMargin) then
     ret lastToken
   else
     try_catch
       (startOauth2 (Token.serverUrl token) (Token.applicationId token)
                    (Token.applicationSecret token) (Some (Token.sub token))
                    true (Token.refreshToken lastToken))
       (fun err =>
          is_offline <- state_offline ;;
          if is_offline then throw err
          else
            modal_open "providerRedirection" "Gitea" ;;
            startOauth2 (Token.serverUrl token) (Token.applicationId token)
                        (Token.applicationSecret token) (Some (Token.sub token))
                        false JsUndefined)) w.
Proof.
  intros Hstored.
  unfold refreshToken, bind at 1, getters_giteaTokensBySub. rewrite Hstored.
  destruct (negb (num_truthy (Token.expiresOn lastToken))); [ reflexivity | ].
  unfold bind at 1, Date_now.
  now destruct (num_gt _ _).
Qed.

(** C1.  When the stored token's [expiresOn] is greater than the current
    time plus five minutes (5 * 60 * 1000 ms), [refreshToken] resolves to
    that stored token and leaves the world as it was: it makes no call at
    all, so no OAuth2 exchange and no HTTP request. *)
Theorem refreshToken_unexpired_returns_stored
    (w : World) (token lastToken : Token.t) (expiresOn : Z) :
  giteaTokensBySub w !! Token.sub token = Some lastToken ->
  Token.expiresOn lastToken = Num expiresOn ->
  expiresOn > Z.of_N (now w) + 5 * 60 * 1000 ->
  refreshToken token w = (Ok lastToken, w)
  /\ List.filter is_network_call (events_since w (snd (refreshToken token w))) = [].
Proof.
  intros Hstored Hexp Hgt.
  assert (Hrun : refreshToken token w = (Ok lastToken, w)).
  { rewrite (refreshToken_stored _ _ _ Hstored), Hexp. simpl.
    assert (Hnz : (expiresOn =? 0) = false) by (apply Z.eqb_neq; lia).
    rewrite Hnz. simpl.
    assert (Hlt : (Z.of_N (now w) + tokenExpirationMargin <? expiresOn) = true)
      by (apply Z.ltb_lt; unfold tokenExpirationMargin; lia).
    now rewrite Hlt. }
  split; [ exact Hrun | ].
  rewrite Hrun. simpl. now rewrite events_since_refl.
Qed.

Lemma refreshToken_unexpired_returns_stored_witness :
  let stored := alice_token (Num 1793577900001) in
  let w := sample_world (sample_env false false false (Num 3600) "alice") stored in
  refreshToken (alice_token (Num 1)) w = (Ok stored, w)
  /\ List.filter is_network_call
       (events_since w (snd (refreshToken (alice_token (Num 1)) w))) = [].
Proof.
  apply (refreshToken_unexpired_returns_stored _ _ _ 1793577900001).
  - reflexivity.
  - reflexivity.
  - vm_compute. reflexivity.
Defined.

(** C10.  When the store has no entry for the token's [sub],
    [refreshToken] raises the [TypeError] of reading [expiresOn] off
    [undefined] and does nothing else: it does not fall back to acquiring a
    token.  The five authenticated operations start with [refreshToken],
    so each of them fails the same way, before any call is made. *)
Theorem refreshToken_missing_entry_throws (w : World) (token : Token.t) :
  giteaTokensBySub w !! Token.sub token = None ->
  let err := TypeError "Cannot read properties of undefined (reading 'expiresOn')" in
  refreshToken token w = (Throw err, w)
  /\ (forall projectId branch,
        getTree token projectId branch w = (Throw err, w))
  /\ (forall projectId branch path,
        getCommits token projectId branch path w = (Throw err, w))
  /\ (forall projectId branch path content sha,
        uploadFile token projectId branch path content sha w = (Throw err, w))
  /\ (forall projectId branch path sha,
        removeFile token projectId branch path sha w = (Throw err, w))
  /\ (forall projectId branch path,
        downloadFile token projectId branch path w = (Throw err, w)).
Proof.
  intros Hnone err.
  assert (Hrun : refreshToken token w = (Throw err, w)).
  { unfold refreshToken, bind, getters_giteaTokensBySub. now rewrite Hnone. }
  repeat split; [ exact Hrun | intros .. ];
    unfold getTree, getCommits, uploadFile, removeFile, downloadFile;
    unfold bind at 1; now rewrite Hrun.
Qed.

Lemma refreshToken_missing_entry_throws_witness :
  let w := empty_world (sample_env false false false (Num 3600) "alice") in
  refreshToken (alice_token (Num 1)) w
  = (Throw (TypeError "Cannot read properties of undefined (reading 'expiresOn')"), w).
Proof.
  apply (refreshToken_missing_entry_throws
           (empty_world (sample_env false false false (Num 3600) "alice"))
           (alice_token (Num 1))).
  reflexivity.
Defined.

Lemma filter_nil_of_forallb {A} (P Q : A -> bool) (l : list A) :
  (forall a, P a = true -> Q a = false) ->
  forallb P l = true -> List.filter Q l = [].
Proof.
  intros HPQ. induction l as [| a l IH]; simpl; [ reflexivity | ].
  intros H. apply andb_true_iff in H as [Ha Hl].
  rewrite (HPQ a Ha). now apply IH.
Qed.

Lemma startOauth2_event_not_modal silent e :
  startOauth2_event silent e = true -> is_modal e = false.
Proof. now destruct e. Qed.

Lemma startOauth2_event_silent_not_interactive e :
  startOauth2_event true e = true -> is_interactive_authorization e = false.
Proof. now destruct e. Qed.

Lemma startOauth2_event_interactive_not_silent e :
  startOauth2_event false e = true -> negb (is_silent_exchange e) = true.
Proof.
  destruct e; simpl; try reflexivity.
  now destruct (is_refresh_grant options).
Qed.

(** The trace of a run of [startOauth2], as a list of new calls. *)
Lemma startOauth2_trace serverUrl applicationId applicationSecret sub silent rt w :
  exists d,
    trace (snd (startOauth2 serverUrl applicationId applicationSecret
                            sub silent rt w)) = trace w ++ d
    /\ forallb (startOauth2_event silent) d = true.
Proof.
  destruct (appends_startOauth2 serverUrl applicationId applicationSecret
                                sub silent rt w) as (d & Ht & Hp & _).
  now exists d.
Qed.

(** The prompt settles one way or the other, and is one call. *)
Lemma modal_open_trace type name w :
  trace (snd (modal_open type name w)) = trace w ++ [EvModalOpen type name].
Proof.
  unfold modal_open, await.
  now destruct (outcome (modal_reply (env w) (trace w) type name)).
Qed.

(** The prompt followed by the interactive flow: the prompt is the first
    call, no second prompt follows, and no refresh-token exchange. *)
Lemma prompt_then_reauthorize_trace serverUrl applicationId applicationSecret sub w :
  exists d,
    trace (snd ((modal_open "providerRedirection" "Gitea" ;;
                 startOauth2 serverUrl applicationId applicationSecret sub
                             false JsUndefined) w))
    = trace w ++ EvModalOpen "providerRedirection" "Gitea" :: d
    /\ forallb (startOauth2_event false) d = true.
Proof.
  unfold bind.
  pose proof (modal_open_trace "providerRedirection" "Gitea" w) as Hm.
  destruct (modal_open "providerRedirection" "Gitea" w) as [[[] | e] w1];
    simpl in Hm.
  - destruct (startOauth2_trace serverUrl applicationId applicationSecret sub
                                false JsUndefined w1) as (d & Ht & Hp).
    exists d. split; [ | exact Hp ].
    rewrite Ht, Hm, <- app_assoc. reflexivity.
  - exists []. split; [ exact Hm | reflexivity ].
Qed.

(** C2, as the code has it.  For a stored token without [expiresOn],
    [refreshToken] is the modal prompt (type providerRedirection, name
    Gitea) followed by [startOauth2] with [silent = false] for the same
    [sub]: when the prompt resolves the interactive flow runs, when the
    prompt is dismissed [refreshToken] rejects with the prompt's rejection
    and [startOauth2] is not called.  Either way no refresh-token exchange
    is attempted. *)
Theorem refreshToken_legacy_prompts_then_reauthorizes
    (w : World) (token lastToken : Token.t) :
  giteaTokensBySub w !! Token.sub token = Some lastToken ->
  Token.expiresOn lastToken = NumUndefined ->
  let prompt := modal_open "providerRedirection" "Gitea" in
  let reauthorize :=
    startOauth2 (Token.serverUrl token) (Token.applicationId token)
                (Token.applicationSecret token) (Some (Token.sub token))
                false JsUndefined in
  refreshToken token w = (prompt ;; reauthorize) w
  /\ (forall w1, prompt w = (Ok tt, w1) -> refreshToken token w = reauthorize w1)
  /\ (forall err w1, prompt w = (Throw err, w1) ->
        refreshToken token w = (Throw err, w1)
        /\ events_since w w1 = [EvModalOpen "providerRedirection" "Gitea"])
  /\ List.filter is_silent_exchange (events_since w (snd (refreshToken token w))) = [].
Proof.
  intros Hstored Hlegacy prompt reauthorize.
  assert (Hrun : refreshToken token w = (prompt ;; reauthorize) w).
  { rewrite (refreshToken_stored _ _ _ Hstored), Hlegacy. reflexivity. }
  split; [ exact Hrun | ]. split; [ | split ].
  - intros w1 Hp. rewrite Hrun. unfold bind. now rewrite Hp.
  - intros err w1 Hp. split.
    + rewrite Hrun. unfold bind. now rewrite Hp.
    + apply events_since_app.
      pose proof (modal_open_trace "providerRedirection" "Gitea" w) as Hm.
      fold prompt in Hm. now rewrite Hp in Hm.
  - rewrite Hrun.
    destruct (prompt_then_reauthorize_trace
                (Token.serverUrl token) (Token.applicationId token)
                (Token.applicationSecret token) (Some (Token.sub token)) w)
      as (d & Ht & Hp).
    fold prompt reauthorize in Ht.
    rewrite (events_since_app _ _ _ Ht). simpl.
    apply (filter_nil_of_forallb (startOauth2_event false)); [ | exact Hp ].
    intros e He. apply startOauth2_event_interactive_not_silent in He.
    now destruct (is_silent_exchange e).
Qed.

Lemma refreshToken_legacy_prompts_then_reauthorizes_witness :
  let stored := alice_token NumUndefined in
  let w := sample_world (sample_env false false false (Num 3600) "alice") stored in
  List.filter is_silent_exchange (events_since w (snd (refreshToken stored w))) = []
  /\ List.filter is_interactive_authorization
       (events_since w (snd (refreshToken stored w)))
     = [EvStartOauth2 "https://git.example.com/login/oauth/authorize"
          [("client_id", JsString "app-id");
           ("response_type", JsString "code");
           ("redirect_uri", JsString "https://stackedit.example/oauth2/callback")]
          false].
Proof.
  split.
  - apply (refreshToken_legacy_prompts_then_reauthorizes
             (sample_world (sample_env false false false (Num 3600) "alice")
                           (alice_token NumUndefined))
             (alice_token NumUndefined) (alice_token NumUndefined));
      reflexivity.
  - vm_compute. reflexivity.
Defined.

(** C2 as stated fails when the user dismisses the prompt: the stored token
    is a legacy one, [refreshToken] rejects, and the only call made is the
    prompt; [startOauth2] is never entered, so no interactive authorization
    takes place. *)
Lemma refreshToken_legacy_prompt_dismissed :
  let stored := alice_token NumUndefined in
  let w := sample_world (sample_env false true false (Num 3600) "alice") stored in
  giteaTokensBySub w !! Token.sub stored = Some stored
  /\ Token.expiresOn stored = NumUndefined
  /\ fst (refreshToken stored w) = Throw (Rejection None "dismissed")
  /\ events_since w (snd (refreshToken stored w))
     = [EvModalOpen "providerRedirection" "Gitea"]
  /\ existsb is_interactive_authorization
       (events_since w (snd (refreshToken stored w))) = false.
Proof. vm_compute. repeat split. Qed.

Lemma appends_weaken {A} (P Q : Event -> bool) (m : M A) :
  (forall e, P e = true -> Q e = true) -> appends P m -> appends Q m.
Proof.
  intros HPQ Hm w. destruct (Hm w) as (d & Ht & Hp & He).
  exists d. split; [ exact Ht | ]. split; [ | exact He ].
  clear Ht. induction d as [| e d IH]; simpl in *; [ reflexivity | ].
  apply andb_true_iff in Hp as [He1 Hd]. now rewrite (HPQ e He1), IH.
Qed.

(** A run that starts with the call [ev] keeps starting with it when more
    is bound after it, or when it is wrapped in a [try]. *)
Lemma bind_first_call {A B} P (m : M A) (k : A -> M B) (w : World) (ev : Event) :
  (exists d, trace (snd (m w)) = trace w ++ ev :: d) ->
  (forall a, appends P (k a)) ->
  exists d, trace (snd (bind m k w)) = trace w ++ ev :: d.
Proof.
  intros (d1 & Ht1) Hk. unfold bind.
  destruct (m w) as [[a | e] w1]; simpl in *.
  - destruct (Hk a w1) as (d2 & Ht2 & _). exists (d1 ++ d2).
    rewrite Ht2, Ht1, <- app_assoc. reflexivity.
  - now exists d1.
Qed.

Lemma try_catch_first_call {A} P (m : M A) (h : JsError -> M A)
    (w : World) (ev : Event) :
  (exists d, trace (snd (m w)) = trace w ++ ev :: d) ->
  (forall e, appends P (h e)) ->
  exists d, trace (snd (try_catch m h w)) = trace w ++ ev :: d.
Proof.
  intros (d1 & Ht1) Hh. unfold try_catch.
  destruct (m w) as [[a | e] w1]; simpl in *.
  - now exists d1.
  - destruct (Hh e w1) as (d2 & Ht2 & _). exists (d1 ++ d2).
    rewrite Ht2, Ht1, <- app_assoc. reflexivity.
Qed.

Lemma appends_any_startOauth2 serverUrl applicationId applicationSecret sub silent rt :
  appends any_event
          (startOauth2 serverUrl applicationId applicationSecret sub silent rt).
Proof.
  apply (appends_weaken (startOauth2_event silent)); [ reflexivity | ].
  apply appends_startOauth2.
Qed.

Lemma modal_open_env type name w :
  env (snd (modal_open type name w)) = env w.
Proof.
  unfold modal_open, await.
  now destruct (outcome (modal_reply (env w) (trace w) type name)).
Qed.

Lemma networkSvc_startOauth2_trace url params silent w :
  trace (snd (networkSvc_startOauth2 url params silent w))
  = trace w ++ [EvStartOauth2 url params silent].
Proof.
  unfold networkSvc_startOauth2, await.
  now destruct (outcome (startOauth2_reply (env w) (trace w) url params silent)).
Qed.

(** The first call of an interactive [startOauth2] is the authorization
    redirect or popup (lines 63-70), whatever comes back from it. *)
Lemma startOauth2_interactive_first_call
    serverUrl applicationId applicationSecret sub rt w :
  exists d,
    trace (snd (startOauth2 serverUrl applicationId applicationSecret sub
                            false rt w))
    = trace w
      ++ EvStartOauth2 (serverUrl +:+ "/login/oauth/authorize")
           [("client_id", JsString applicationId);
            ("response_type", JsString "code");
            ("redirect_uri", JsString (oauth2RedirectUri (env w)))]
           false
         :: d.
Proof.
  unfold startOauth2. apply (bind_first_call any_event).
  - unfold exchangeToken, bind at 1, constants_oauth2RedirectUri. simpl.
    apply (bind_first_call any_event).
    + exists []. apply networkSvc_startOauth2_trace.
    + intros code. now apply appends_networkSvc_request.
  - intros tokenBody.
    unfold userSvc_addUserInfo, Date_now.
    apply appends_bind; [ now apply appends_request | intros user ].
    apply appends_bind; [ now apply appends_emit | intros _ ].
    destruct (sub_mismatch _ _); appends_tac.
Qed.

(** *** After a failed silent attempt *)

Section SilentFailure.

(** The stored token [lastToken] carries a number as [expiresOn], truthy and
    not beyond the clock plus the margin, so [refreshToken] goes for the
    silent attempt; that attempt fails with [err] and leaves the world
    [w1]. *)
Variables (w w1 : World) (token lastToken : Token.t).
Variables (expiresOn : Z) (err : JsError).

Let prompt : M unit := modal_open "providerRedirection" "Gitea".

Let reauthorize : M Token.t :=
  startOauth2 (Token.serverUrl token) (Token.applicationId token)
              (Token.applicationSecret token) (Some (Token.sub token))
              false JsUndefined.

Hypothesis stored : giteaTokensBySub w !! Token.sub token = Some lastToken.
Hypothesis expires : Token.expiresOn lastToken = Num expiresOn.
Hypothesis truthy_expiresOn : expiresOn <> 0.
Hypothesis near_expiry : expiresOn <= Z.of_N (now w) + 5 * 60 * 1000.
Hypothesis silent_fails :
  startOauth2 (Token.serverUrl token) (Token.applicationId token)
              (Token.applicationSecret token) (Some (Token.sub token))
              true (Token.refreshToken lastToken) w = (Throw err, w1).

(** The [catch] block, from the world the attempt left. *)
Lemma refreshToken_silent_failure :
  refreshToken token w =
  (if offline w1 then (Throw err, w1) else (prompt ;; reauthorize) w1).
Proof.
  rewrite (refreshToken_stored _ _ _ stored), expires. simpl.
  pose proof truthy_expiresOn as Hnz. apply Z.eqb_neq in Hnz. rewrite Hnz. simpl.
  assert (Hlt : (Z.of_N (now w) + tokenExpirationMargin <? expiresOn) = false)
    by (apply Z.ltb_ge; pose proof near_expiry; unfold tokenExpirationMargin; lia).
  rewrite Hlt. unfold try_catch. rewrite silent_fails.
  unfold bind at 1, state_offline. now destruct (offline w1).
Qed.

(** The silent attempt made only calls of a silent [startOauth2]. *)
Lemma silent_attempt_trace :
  exists d, trace w1 = trace w ++ d /\ forallb (startOauth2_event true) d = true.
Proof.
  destruct (startOauth2_trace
              (Token.serverUrl token) (Token.applicationId token)
              (Token.applicationSecret token) (Some (Token.sub token))
              true (Token.refreshToken lastToken) w) as (d & Ht & Hp).
  rewrite silent_fails in Ht. now exists d.
Qed.

(** C4.  The stored token is at or past the margin and the silent attempt
    fails with [err], leaving the [offline] flag set: [refreshToken]
    rejects with that same [err] in the world the attempt left, and over
    the whole run no modal prompt was opened and no interactive
    authorization was started. *)
Theorem refreshToken_offline_failure_propagates :
  offline w1 = true ->
  refreshToken token w = (Throw err, w1)
  /\ List.filter is_modal (events_since w (snd (refreshToken token w))) = []
  /\ List.filter is_interactive_authorization
       (events_since w (snd (refreshToken token w))) = [].
Proof.
  intros Hoff.
  assert (Hrun : refreshToken token w = (Throw err, w1))
    by (rewrite refreshToken_silent_failure; now rewrite Hoff).
  split; [ exact Hrun | ]. rewrite Hrun. simpl.
  destruct silent_attempt_trace as (d & Ht & Hp).
  rewrite (events_since_app _ _ _ Ht).
  split.
  - apply (filter_nil_of_forallb (startOauth2_event true)); [ | exact Hp ].
    intros e. apply startOauth2_event_not_modal.
  - apply (filter_nil_of_forallb (startOauth2_event true)); [ | exact Hp ].
    intros e. apply startOauth2_event_silent_not_interactive.
Qed.

(** C5.  The stored token is at or past the margin and the silent attempt
    fails, leaving the [offline] flag clear: [refreshToken] continues as
    the modal prompt (type providerRedirection, name Gitea) followed by
    [startOauth2] with [silent = false] for the same [sub].  Over the whole
    run exactly one prompt is opened; nothing interactive happens before
    it; when it resolves the interactive flow runs from there, so that
    the calls of the run are those of the silent attempt, then the prompt,
    then the authorization redirect or popup on
    [{serverUrl}/login/oauth/authorize] with [silent = false], then what
    that flow goes on to do; and when the prompt is rejected the run ends
    with the prompt as its last call. *)
Theorem refreshToken_online_failure_prompts_once :
  offline w1 = false ->
  refreshToken token w = (prompt ;; reauthorize) w1
  /\ List.filter is_modal (events_since w (snd (refreshToken token w)))
     = [EvModalOpen "providerRedirection" "Gitea"]
  /\ List.filter is_interactive_authorization (events_since w w1) = []
  /\ (forall w2, prompt w1 = (Ok tt, w2) ->
        refreshToken token w = reauthorize w2
        /\ exists d,
             events_since w (snd (refreshToken token w))
             = events_since w w1
               ++ EvModalOpen "providerRedirection" "Gitea"
                  :: EvStartOauth2
                       (Token.serverUrl token +:+ "/login/oauth/authorize")
                       [("client_id", JsString (Token.applicationId token));
                        ("response_type", JsString "code");
                        ("redirect_uri", JsString (oauth2RedirectUri (env w1)))]
                       false
                  :: d)
  /\ (forall e w2, prompt w1 = (Throw e, w2) ->
        refreshToken token w = (Throw e, w2)
        /\ events_since w1 w2 = [EvModalOpen "providerRedirection" "Gitea"]).
Proof.
  intros Hoff.
  assert (Hrun : refreshToken token w = (prompt ;; reauthorize) w1)
    by (rewrite refreshToken_silent_failure; now rewrite Hoff).
  destruct silent_attempt_trace as (d1 & Ht1 & Hp1).
  split; [ exact Hrun | ]. split; [ | split; [ | split ] ].
  - rewrite Hrun.
    destruct (prompt_then_reauthorize_trace
                (Token.serverUrl token) (Token.applicationId token)
                (Token.applicationSecret token) (Some (Token.sub token)) w1)
      as (d2 & Ht2 & Hp2).
    fold prompt reauthorize in Ht2.
    assert (Ht : trace (snd ((prompt ;; reauthorize) w1))
                 = trace w ++ d1 ++ EvModalOpen "providerRedirection" "Gitea" :: d2)
      by (rewrite Ht2, Ht1, <- app_assoc; reflexivity).
    rewrite (events_since_app _ _ _ Ht), List.filter_app. simpl.
    rewrite (filter_nil_of_forallb (startOauth2_event true) is_modal d1),
            (filter_nil_of_forallb (startOauth2_event false) is_modal d2);
      try assumption; try (intros e; apply startOauth2_event_not_modal).
    reflexivity.
  - rewrite (events_since_app _ _ _ Ht1).
    apply (filter_nil_of_forallb (startOauth2_event true)); [ | exact Hp1 ].
    intros e. apply startOauth2_event_silent_not_interactive.
  - intros w2 Hp.
    assert (Hcont : refreshToken token w = reauthorize w2)
      by (rewrite Hrun; unfold bind; now rewrite Hp).
    split; [ exact Hcont | ].
    pose proof (modal_open_trace "providerRedirection" "Gitea" w1) as Hm.
    pose proof (modal_open_env "providerRedirection" "Gitea" w1) as He.
    fold prompt in Hm, He. rewrite Hp in Hm, He. simpl in Hm, He.
    destruct (startOauth2_interactive_first_call
                (Token.serverUrl token) (Token.applicationId token)
                (Token.applicationSecret token) (Some (Token.sub token))
                JsUndefined w2) as (d & Hd).
    fold reauthorize in Hd. rewrite He in Hd.
    exists d. rewrite (events_since_app _ _ _ Ht1).
    apply events_since_app.
    rewrite Hcont, Hd, Hm, Ht1, <- !app_assoc. reflexivity.
  - intros e w2 Hp. split.
    + rewrite Hrun. unfold bind. now rewrite Hp.
    + apply events_since_app.
      pose proof (modal_open_trace "providerRedirection" "Gitea" w1) as Hm.
      fold prompt in Hm. now rewrite Hp in Hm.
Qed.

End SilentFailure.

Lemma refreshToken_offline_failure_propagates_witness :
  let stored := alice_token (Num 1793577600000) in
  let w := sample_world (sample_env true false true (Num 3600) "alice") stored in
  fst (refreshToken stored w) = Throw (Rejection (Some 400) "invalid_grant")
  /\ List.filter is_modal (events_since w (snd (refreshToken stored w))) = [].
Proof.
  pose (stored := alice_token (Num 1793577600000)).
  pose (w := sample_world (sample_env true false true (Num 3600) "alice") stored).
  pose (w1 := snd (startOauth2 (Token.serverUrl stored) (Token.applicationId stored)
                               (Token.applicationSecret stored)
                               (Some (Token.sub stored)) true
                               (Token.refreshToken stored) w)).
  destruct (refreshToken_offline_failure_propagates
              w w1 stored stored 1793577600000
              (Rejection (Some 400) "invalid_grant"))
    as (Hrun & Hmodal & _).
  - reflexivity.
  - reflexivity.
  - discriminate.
  - vm_compute. discriminate.
  - vm_compute. reflexivity.
  - vm_compute. reflexivity.
  - split; [ | exact Hmodal ].
    change (fst (refreshToken stored w)
            = Throw (Rejection (Some 400) "invalid_grant")).
    now rewrite Hrun.
Defined.

Lemma refreshToken_online_failure_prompts_once_witness :
  let stored := alice_token (Num 1793577600000) in
  let w := sample_world (sample_env true false false (Num 3600) "alice") stored in
  let w1 := snd (startOauth2 (Token.serverUrl stored) (Token.applicationId stored)
                             (Token.applicationSecret stored)
                             (Some (Token.sub stored)) true
                             (Token.refreshToken stored) w) in
  List.filter is_modal (events_since w (snd (refreshToken stored w)))
  = [EvModalOpen "providerRedirection" "Gitea"]
  /\ exists d,
       events_since w (snd (refreshToken stored w))
       = events_since w w1
         ++ EvModalOpen "providerRedirection" "Gitea"
            :: EvStartOauth2
                 "https://git.example.com/login/oauth/authorize"
                 [("client_id", JsString "app-id");
                  ("response_type", JsString "code");
                  ("redirect_uri",
                   JsString "https://stackedit.example/oauth2/callback")]
                 false
            :: d.
Proof.
  intros stored w w1.
  pose (w2 := snd (modal_open "providerRedirection" "Gitea" w1)).
  destruct (refreshToken_online_failure_prompts_once
              w w1 stored stored 1793577600000
              (Rejection (Some 400) "invalid_grant"))
    as (_ & Hmodal & _ & Hresolved & _).
  - reflexivity.
  - reflexivity.
  - discriminate.
  - vm_compute. discriminate.
  - vm_compute. reflexivity.
  - vm_compute. reflexivity.
  - split; [ exact Hmodal | ].
    destruct (Hresolved w2) as [_ (d & Hd)]; [ vm_compute; reflexivity | ].
    exists d. exact Hd.
Defined.

(** ** startOauth2 *)

(** [startOauth2] after the token exchange and the user lookup have both
    resolved: the user info is recorded, then either the [sub] check
    raises or the token is built from the clock and stored. *)
Lemma startOauth2_resolved
    (w w1 w2 : World) (serverUrl applicationId applicationSecret : string)
    (sub : option string) (silent : bool) (rt : JsVal) (tokenBody user : Body.t) :
  exchangeToken serverUrl applicationId applicationSecret silent rt w
  = (Ok tokenBody, w1) ->
  request (Body.access_token tokenBody) serverUrl userOptions w1 = (Ok user, w2) ->
  let uniqueSub := serverUrl +:+ "/" +:+ Body.username user in
  let w3 :=
    snd (userSvc_addUserInfo
           (UserInfo.mk (subPrefix +:+ ":" +:+ uniqueSub) (Body.username user)
                        (js_or (Body.avatar_url user) (JsString ""))) w2) in
  let token :=
    Token.mk (Body.access_token tokenBody) (Body.username user)
             applicationId applicationSecret (Body.refresh_token tokenBody)
             (num_add (Z.of_N (now w3)) (num_mul (Body.expires_in tokenBody) 1000))
             serverUrl uniqueSub in
  startOauth2 serverUrl applicationId applicationSecret sub silent rt w
  = (if sub_mismatch sub uniqueSub
     then (Throw (Error "Gitea account ID not expected."), w3)
     else (Ok token, snd (dispatch_addGiteaToken token w3))).
Proof.
  intros Hex Hreq uniqueSub w3 token.
  unfold startOauth2. unfold bind at 1. rewrite Hex.
  unfold bind at 1. rewrite Hreq.
  unfold bind at 1. simpl.
  fold uniqueSub. destruct (sub_mismatch sub uniqueSub); reflexivity.
Qed.

Lemma networkSvc_request_store options w :
  giteaTokensBySub (snd (networkSvc_request options w)) = giteaTokensBySub w.
Proof.
  unfold networkSvc_request, await.
  now destruct (outcome (request_reply (env w) (trace w) options)).
Qed.

Lemma exchangeToken_store serverUrl applicationId applicationSecret silent rt w :
  giteaTokensBySub
    (snd (exchangeToken serverUrl applicationId applicationSecret silent rt w))
  = giteaTokensBySub w.
Proof.
  unfold exchangeToken, bind at 1, constants_oauth2RedirectUri.
  destruct silent; simpl.
  - apply networkSvc_request_store.
  - unfold bind, networkSvc_startOauth2, await.
    destruct (outcome (startOauth2_reply _ _ _ _ _)); simpl; [ reflexivity | ].
    now rewrite networkSvc_request_store.
Qed.

Lemma appends_network_exchangeToken serverUrl applicationId applicationSecret silent rt :
  appends is_network_call
          (exchangeToken serverUrl applicationId applicationSecret silent rt).
Proof.
  unfold exchangeToken, constants_oauth2RedirectUri.
  destruct silent; simpl; appends_tac.
Qed.

(** C3.  The caller passed an expected [sub] (a non-empty string, which is
    what the source's [sub &&] tests), the token exchange and the user
    lookup resolved, and the [sub] built from the reported user name
    differs from the expected one: [startOauth2] rejects with
    [Error('Gitea account ID not expected.')], the Token Store is what it
    was, and no [data/addGiteaToken] dispatch was made. *)
Theorem startOauth2_sub_mismatch_rejects
    (w w1 w2 : World) (serverUrl applicationId applicationSecret sub : string)
    (silent : bool) (rt : JsVal) (tokenBody user : Body.t) :
  exchangeToken serverUrl applicationId applicationSecret silent rt w
  = (Ok tokenBody, w1) ->
  request (Body.access_token tokenBody) serverUrl userOptions w1 = (Ok user, w2) ->
  sub <> "" ->
  serverUrl +:+ "/" +:+ Body.username user <> sub ->
  let run := startOauth2 serverUrl applicationId applicationSecret (Some sub)
                         silent rt w in
  fst run = Throw (Error "Gitea account ID not expected.")
  /\ giteaTokensBySub (snd run) = giteaTokensBySub w
  /\ List.filter is_token_write (events_since w (snd run)) = [].
Proof.
  intros Hex Hreq Hsub Hdiff run. unfold run.
  rewrite (startOauth2_resolved _ _ _ _ _ _ _ _ _ _ _ Hex Hreq).
  assert (Hmis : sub_mismatch (Some sub)
                   (serverUrl +:+ "/" +:+ Body.username user) = true).
  { simpl. apply String.eqb_neq in Hsub, Hdiff. now rewrite Hsub, Hdiff. }
  rewrite Hmis. simpl.
  pose proof (exchangeToken_store serverUrl applicationId applicationSecret
                                  silent rt w) as Hs1.
  rewrite Hex in Hs1. simpl in Hs1.
  pose proof (networkSvc_request_store
                (Options.mk None (serverUrl +:+ "/api/v1/user")
                   [("Authorization", "Bearer " +:+ Body.access_token tokenBody)]
                   [] []) w1) as Hs2.
  change (networkSvc_request _ w1)
    with (request (Body.access_token tokenBody) serverUrl userOptions w1) in Hs2.
  rewrite Hreq in Hs2. simpl in Hs2.
  split; [ reflexivity | ]. split; [ congruence | ].
  destruct (appends_network_exchangeToken serverUrl applicationId applicationSecret
                                          silent rt w) as (d1 & Ht1 & Hp1 & _).
  rewrite Hex in Ht1. simpl in Ht1.
  destruct (appends_request is_network_call (Body.access_token tokenBody)
                            serverUrl userOptions (fun _ _ => eq_refl) w1)
    as (d2 & Ht2 & Hp2 & _).
  rewrite Hreq in Ht2. simpl in Ht2.
  erewrite events_since_app
    by (rewrite Ht2, Ht1, <- !app_assoc; reflexivity).
  rewrite !List.filter_app. simpl.
  rewrite !(filter_nil_of_forallb is_network_call is_token_write);
    try assumption; try (intros e; now destruct e).
  reflexivity.
Qed.

Lemma startOauth2_sub_mismatch_rejects_witness :
  let w := sample_world (sample_env false false false (Num 3600) "mallory")
                        (alice_token (Num 1)) in
  let run := startOauth2 "https://git.example.com" "app-id" "app-secret"
                         (Some alice_sub) false JsUndefined w in
  fst run = Throw (Error "Gitea account ID not expected.")
  /\ giteaTokensBySub (snd run) = giteaTokensBySub w
  /\ List.filter is_token_write (events_since w (snd run)) = [].
Proof.
  pose (w := sample_world (sample_env false false false (Num 3600) "mallory")
                          (alice_token (Num 1))).
  pose (ex := exchangeToken "https://git.example.com" "app-id" "app-secret"
                            false JsUndefined w).
  pose (rq := request "a2" "https://git.example.com" userOptions (snd ex)).
  apply (startOauth2_sub_mismatch_rejects
           w (snd ex) (snd rq) "https://git.example.com" "app-id" "app-secret"
           alice_sub false JsUndefined
           (sample_body (Num 3600) "mallory") (sample_body (Num 3600) "mallory")).
  - vm_compute. reflexivity.
  - vm_compute. reflexivity.
  - discriminate.
  - vm_compute. discriminate.
Defined.

(** What a successful [startOauth2] leaves behind: the token it resolves
    to is the one now stored under its [sub], and its [expiresOn] is the
    clock at that moment plus a thousand times the [expires_in] of the
    token response. *)
Lemma startOauth2_success
    (w w1 w' : World) (serverUrl applicationId applicationSecret : string)
    (sub : option string) (silent : bool) (rt : JsVal)
    (tokenBody : Body.t) (token : Token.t) :
  exchangeToken serverUrl applicationId applicationSecret silent rt w
  = (Ok tokenBody, w1) ->
  startOauth2 serverUrl applicationId applicationSecret sub silent rt w
  = (Ok token, w') ->
  giteaTokensBySub w' !! Token.sub token = Some token
  /\ Token.expiresOn token
     = num_add (Z.of_N (now w')) (num_mul (Body.expires_in tokenBody) 1000).
Proof.
  intros Hex Hrun.
  destruct (request (Body.access_token tokenBody) serverUrl userOptions w1)
    as [[user | e] w2] eqn:Hreq.
  - rewrite (startOauth2_resolved _ _ _ _ _ _ _ _ _ _ _ Hex Hreq) in Hrun.
    destruct (sub_mismatch _ _); [ discriminate | ].
    injection Hrun as <- <-. simpl. split; [ | reflexivity ].
    apply lookup_insert_eq.
  - unfold startOauth2 in Hrun. unfold bind at 1 in Hrun. rewrite Hex in Hrun.
    unfold bind at 1 in Hrun. rewrite Hreq in Hrun. discriminate.
Qed.

(** C6, as the code has it.  After a successful [startOauth2] whose token
    response carried as [expires_in] a positive integer, with the current
    time plus [expires_in * 1000] below 2^53 so that the double holds it
    exactly, the token stored under the resolved [sub] is the one
    returned, and its [expiresOn] is the current time plus
    [expires_in * 1000], hence strictly greater than the current time. *)
Theorem startOauth2_expiresOn_in_future
    (w w1 w' : World) (serverUrl applicationId applicationSecret : string)
    (sub : option string) (silent : bool) (rt : JsVal)
    (tokenBody : Body.t) (token : Token.t) (lifetime : Z) :
  exchangeToken serverUrl applicationId applicationSecret silent rt w
  = (Ok tokenBody, w1) ->
  Body.expires_in tokenBody = Num lifetime ->
  0 < lifetime ->
  Z.of_N (now w') + lifetime * 1000 < 2 ^ 53 ->
  startOauth2 serverUrl applicationId applicationSecret sub silent rt w
  = (Ok token, w') ->
  giteaTokensBySub w' !! Token.sub token = Some token
  /\ Token.expiresOn token = Num (Z.of_N (now w') + lifetime * 1000)
  /\ Z.of_N (now w') + lifetime * 1000 > Z.of_N (now w').
Proof.
  intros Hex Hlife Hpos Hfit Hrun.
  destruct (startOauth2_success _ _ _ _ _ _ _ _ _ _ _ Hex Hrun) as [Hst Hexp].
  rewrite Hlife in Hexp.
  rewrite num_mul_exact, num_add_exact in Hexp by lia.
  split; [ exact Hst | ]. split; [ exact Hexp | lia ].
Qed.

Lemma startOauth2_expiresOn_in_future_witness :
  let w := empty_world (sample_env false false false (Num 3600) "alice") in
  let run := startOauth2 "https://git.example.com" "app-id" "app-secret"
                         None false JsUndefined w in
  exists token,
    fst run = Ok token
    /\ giteaTokensBySub (snd run) !! Token.sub token = Some token
    /\ Token.expiresOn token = Num (Z.of_N (now (snd run)) + 3600 * 1000).
Proof.
  pose (w := empty_world (sample_env false false false (Num 3600) "alice")).
  pose (ex := exchangeToken "https://git.example.com" "app-id" "app-secret"
                            false JsUndefined w).
  pose (run := startOauth2 "https://git.example.com" "app-id" "app-secret"
                           None false JsUndefined w).
  pose (token := Token.mk "a2" "alice" "app-id" "app-secret" (JsString "r2")
                          (Num 1793581205240) "https://git.example.com"
                          alice_sub).
  exists token.
  destruct (startOauth2_expiresOn_in_future
              w (snd ex) (snd run) "https://git.example.com" "app-id" "app-secret"
              None false JsUndefined (sample_body (Num 3600) "alice") token 3600)
    as (Hst & Hexp & _).
  - vm_compute. reflexivity.
  - reflexivity.
  - lia.
  - vm_compute. reflexivity.
  - vm_compute. reflexivity.
  - split; [ vm_compute; reflexivity | ]. split; [ exact Hst | exact Hexp ].
Defined.

(** C6 as stated fails when the token endpoint grants a lifetime of zero:
    [startOauth2] succeeds, the token is stored, its [expiresOn] is a
    number, and that number is the current time, not a later one. *)
Lemma startOauth2_zero_lifetime_not_in_future :
  let w := empty_world (sample_env false false false (Num 0) "alice") in
  let run := startOauth2 "https://git.example.com" "app-id" "app-secret"
                         None false JsUndefined w in
  exists token,
    fst run = Ok token
    /\ giteaTokensBySub (snd run) !! Token.sub token = Some token
    /\ Token.expiresOn token = Num (Z.of_N (now (snd run)))
    /\ ~ (exists expiresOn, Token.expiresOn token = Num expiresOn
                            /\ expiresOn > Z.of_N (now (snd run))).
Proof.
  eexists. split; [ vm_compute; reflexivity | ].
  split; [ vm_compute; reflexivity | ].
  split; [ vm_compute; reflexivity | ].
  intros (z & Hz & Hgt). vm_compute in Hz. injection Hz as <-.
  vm_compute in Hgt. discriminate.
Qed.

(** Nor is a positive lifetime enough: with [expires_in] one hundred
    millionth of a second the sum of line 124 rounds back to the current
    time. *)
Example startOauth2_tiny_lifetime_not_in_future :
  let tiny := Double (string_to_number "0.00000001") in
  let w := empty_world (sample_env false false false tiny "alice") in
  let run := startOauth2 "https://git.example.com" "app-id" "app-secret"
                         None false JsUndefined w in
  SFltb (S754_zero false) (to_double tiny) = true
  /\ exists token,
       fst run = Ok token
       /\ Token.expiresOn token = Num (Z.of_N (now (snd run))).
Proof.
  split; [ vm_compute; reflexivity | ].
  eexists. split; vm_compute; reflexivity.
Qed.

(** And an integer lifetime past 2^53 milliseconds is not added exactly:
    the stored [expiresOn] is the nearest double, not the sum. *)
Example startOauth2_huge_lifetime_rounds :
  let w := empty_world (sample_env false false false (Num (2 ^ 53)) "alice") in
  let run := startOauth2 "https://git.example.com" "app-id" "app-secret"
                         None false JsUndefined w in
  exists token expiresOn,
    fst run = Ok token
    /\ Token.expiresOn token = Num expiresOn
    /\ expiresOn <> Z.of_N (now (snd run)) + 2 ^ 53 * 1000.
Proof.
  eexists. eexists. split; [ vm_compute; reflexivity | ].
  split; [ vm_compute; reflexivity | ].
  vm_compute. discriminate.
Qed.

(** ** The authenticated operations *)

(** The one call a run of [networkSvc.request] adds to the trace. *)
Lemma networkSvc_request_trace options w :
  trace (snd (networkSvc_request options w)) = trace w ++ [EvRequest options].
Proof.
  unfold networkSvc_request, await.
  now destruct (outcome (request_reply (env w) (trace w) options)).
Qed.

(** C7.  Once the token is refreshed and the commit message template is
    there, [uploadFile] makes exactly one call, a request on
    [repos/{id}/contents/{path}] with the refreshed token.  With [sha]
    unset (falsy: [undefined], [null] or the empty string) its method is
    POST; with [sha] set its method is PUT, and in both cases the body's
    [sha] field is the [sha] passed in. *)
Theorem uploadFile_create_or_update
    (w w1 : World) (token refreshed : Token.t) (projectId : JsVal)
    (branch path content template : string) (sha : JsVal) :
  refreshToken token w = (Ok refreshed, w1) ->
  git w1 !! (if truthy sha then "updateFileMessage" else "createFileMessage")
  = Some template ->
  exists options,
    uploadFile token projectId branch path content sha w
    = networkSvc_request options w1
    /\ events_since w1 (snd (uploadFile token projectId branch path content sha w))
       = [EvRequest options]
    /\ Options.url options
       = Token.serverUrl refreshed +:+ "/api/v1/" +:+ "repos/"
         +:+ to_string projectId +:+ "/contents/" +:+ encodeURIComponent path
    /\ get_field "Authorization" (Options.headers options)
       = Some ("Bearer " +:+ Token.accessToken refreshed)
    /\ get_field "sha" (Options.body options) = Some sha
    /\ (truthy sha = false -> Options.method options = Some "POST")
    /\ (truthy sha = true -> Options.method options = Some "PUT").
Proof.
  intros Hrefresh Hgit.
  eexists. split; [ | split ].
  - unfold uploadFile. unfold bind at 1. rewrite Hrefresh.
    unfold bind at 1, getCommitMessage. rewrite Hgit.
    unfold bind at 1, utils_encodeBase64. unfold request. reflexivity.
  - apply events_since_app.
    unfold uploadFile. unfold bind at 1. rewrite Hrefresh.
    unfold bind at 1, getCommitMessage. rewrite Hgit.
    unfold bind at 1, utils_encodeBase64. unfold request.
    apply networkSvc_request_trace.
  - simpl. repeat split; intros Hsha; now rewrite Hsha.
Qed.

Lemma uploadFile_create_or_update_witness :
  let stored := alice_token (Num 1793577900001) in
  let w := sample_world (sample_env false false false (Num 3600) "alice") stored in
  (exists options,
     events_since w (snd (uploadFile stored (JsString "org/repo") "main"
                                     "docs/a b.md" "hello" JsUndefined w))
     = [EvRequest options]
     /\ Options.method options = Some "POST"
     /\ get_field "sha" (Options.body options) = Some JsUndefined)
  /\ (exists options,
        events_since w (snd (uploadFile stored (JsString "org/repo") "main"
                                        "docs/a b.md" "hello" (JsString "h1") w))
        = [EvRequest options]
        /\ Options.method options = Some "PUT"
        /\ get_field "sha" (Options.body options) = Some (JsString "h1")).
Proof.
  pose (stored := alice_token (Num 1793577900001)).
  pose (w := sample_world (sample_env false false false (Num 3600) "alice") stored).
  split.
  - destruct (uploadFile_create_or_update
                w w stored stored (JsString "org/repo") "main" "docs/a b.md" "hello"
                "Create {{path}} from StackEdit" JsUndefined)
      as (options & _ & Hev & _ & _ & Hsha & Hpost & _).
    + vm_compute. reflexivity.
    + reflexivity.
    + exists options. split; [ exact Hev | ].
      split; [ now apply Hpost | exact Hsha ].
  - destruct (uploadFile_create_or_update
                w w stored stored (JsString "org/repo") "main" "docs/a b.md" "hello"
                "Update {{path}} from StackEdit" (JsString "h1"))
      as (options & _ & Hev & _ & _ & Hsha & _ & Hput).
    + vm_compute. reflexivity.
    + reflexivity.
    + exists options. split; [ exact Hev | ].
      split; [ now apply Hput | exact Hsha ].
Defined.

(** ** The identity resolver *)

(** C8.  When the profile lookup fails, the resolver rejects: with the
    lookup's own error when that error's status is 404, with
    [Error('RETRY')] for any other failure; so a rejection of the network
    service comes back unchanged exactly when its status is 404.  A [sub]
    that does not split into server and user name fails inside the [try]
    before any lookup and is reported as [Error('RETRY')] too.  In none of
    these cases does the resolver resolve. *)
Theorem infoResolver_failure_policy (w : World) (sub : string) :
  (match_sub sub = None ->
     infoResolver sub w = (Throw (Error "RETRY"), w))
  /\ (forall serverUrl username err w',
        match_sub sub = Some (serverUrl, username) ->
        networkSvc_request (profileOptions serverUrl username) w = (Throw err, w') ->
        (status err = Some 404 -> infoResolver sub w = (Throw err, w'))
        /\ (status err <> Some 404 ->
              infoResolver sub w = (Throw (Error "RETRY"), w'))
        /\ (forall st reason, err = Rejection st reason ->
              (infoResolver sub w = (Throw err, w') <-> st = Some 404))
        /\ (forall info w'', infoResolver sub w <> (Ok info, w''))).
Proof.
  split.
  - intros Hnone. unfold infoResolver, try_catch. now rewrite Hnone.
  - intros serverUrl username err w' Hmatch Hreq.
    assert (Hrun : infoResolver sub w
                   = (if status_is_not_404 err
                      then (Throw (Error "RETRY"), w') else (Throw err, w'))).
    { unfold infoResolver, try_catch. rewrite Hmatch.
      unfold bind at 1. rewrite Hreq.
      now destruct (status_is_not_404 err). }
    assert (H404 : status err = Some 404 -> infoResolver sub w = (Throw err, w')).
    { intros H. rewrite Hrun. unfold status_is_not_404. now rewrite H. }
    assert (Hother : status err <> Some 404 ->
                     infoResolver sub w = (Throw (Error "RETRY"), w')).
    { intros H. rewrite Hrun. unfold status_is_not_404.
      destruct (status err) as [st |]; [ | reflexivity ].
      destruct (Z.eqb_spec st 404) as [-> | Hne]; [ congruence | reflexivity ]. }
    split; [ exact H404 | ]. split; [ exact Hother | ]. split.
    + intros st reason ->. simpl in H404, Hother. split.
      * intros Hsame. destruct (decide (st = Some 404)) as [Heq | Hne];
          [ exact Heq | ].
        rewrite (Hother Hne) in Hsame. discriminate.
      * exact H404.
    + intros info w''. rewrite Hrun. now destruct (status_is_not_404 err).
Qed.

Lemma infoResolver_failure_policy_witness :
  fst (infoResolver alice_sub (empty_world (failing_env (Some 404))))
  = Throw (Rejection (Some 404) "request failed")
  /\ fst (infoResolver alice_sub (empty_world (failing_env (Some 503))))
     = Throw (Error "RETRY")
  /\ fst (infoResolver alice_sub (empty_world (failing_env None)))
     = Throw (Error "RETRY")
  /\ fst (infoResolver "alice" (empty_world (failing_env (Some 404))))
     = Throw (Error "RETRY").
Proof.
  pose (lookup st := snd (networkSvc_request
                            (profileOptions "https://git.example.com" "alice")
                            (empty_world (failing_env st)))).
  split; [ | split; [ | split ] ].
  - destruct (infoResolver_failure_policy
                (empty_world (failing_env (Some 404))) alice_sub) as [_ H].
    destruct (H "https://git.example.com" "alice"
                (Rejection (Some 404) "request failed") (lookup (Some 404)))
      as (H404 & _); [ reflexivity | reflexivity | ].
    rewrite H404; reflexivity.
  - destruct (infoResolver_failure_policy
                (empty_world (failing_env (Some 503))) alice_sub) as [_ H].
    destruct (H "https://git.example.com" "alice"
                (Rejection (Some 503) "request failed") (lookup (Some 503)))
      as (_ & Hother & _); [ reflexivity | reflexivity | ].
    rewrite Hother; [ reflexivity | discriminate ].
  - destruct (infoResolver_failure_policy
                (empty_world (failing_env None)) alice_sub) as [_ H].
    destruct (H "https://git.example.com" "alice"
                (Rejection None "request failed") (lookup None))
      as (_ & Hother & _); [ reflexivity | reflexivity | ].
    rewrite Hother; [ reflexivity | discriminate ].
  - destruct (infoResolver_failure_policy
                (empty_world (failing_env (Some 404))) "alice") as [Hbad _].
    rewrite Hbad; reflexivity.
Defined.

(** ** getProjectId *)

Lemma is_slash_eq c : is_slash c = true -> c = "/"%char.
Proof. apply Ascii.eqb_eq. Qed.

Lemma split_slash_no_slash s : no_slash s = true -> split_slash s = [s].
Proof.
  induction s as [| c rest IH]; simpl; [ reflexivity | ].
  destruct (is_slash c); simpl; [ discriminate | ].
  intros H. now rewrite (IH H).
Qed.

Lemma split_slash_slash s :
  no_slash s = false -> exists a b l, split_slash s = a :: b :: l.
Proof.
  induction s as [| c rest IH]; simpl; [ discriminate | ].
  destruct (is_slash c); simpl.
  - intros _. destruct rest as [| c' rest']; [ now exists "", "", [] | ].
    destruct (no_slash (String c' rest')) eqn:Hns.
    + rewrite (split_slash_no_slash _ Hns). now eexists _, _, _.
    + destruct (IH eq_refl) as (a & b & l & ->). now eexists _, _, _.
  - intros H. destruct (IH H) as (a & b & l & ->). now eexists _, _, _.
Qed.

(** The tail of the two expressions, on the split input. *)
Lemma match_slash_segment_end_split s :
  match_slash_segment_end s
  = match split_slash s with
    | [a; b] => if negb (nonempty a) && nonempty b then Some b else None
    | _ => None
    end
  /\ (forall name, match_slash_segment_end s = Some name -> s = String "/" name).
Proof.
  destruct s as [| c rest]; simpl; [ now split | ].
  destruct (is_slash c) eqn:Hc; simpl.
  - apply is_slash_eq in Hc. subst c.
    destruct (no_slash rest) eqn:Hns.
    + rewrite (split_slash_no_slash _ Hns). simpl.
      rewrite andb_true_r. split; [ reflexivity | ].
      intros name. destruct (nonempty rest); [ | discriminate ].
      now intros [= <-].
    + rewrite andb_false_r. split; [ | discriminate ].
      destruct (split_slash_slash _ Hns) as (a & b & l & ->). reflexivity.
  - split; [ | discriminate ].
    destruct (split_slash rest) as [| x [| b [| y l]]]; reflexivity.
Qed.

(** [([^/]+\/[^/]+)$] matches at the start of [s] exactly when [s] is two
    non-empty segments, and the match is then all of [s]. *)
Lemma match_repo_here_split s :
  match_repo_here s = if two_nonempty (split_slash s) then Some s else None.
Proof.
  induction s as [| c rest IH]; [ reflexivity | ].
  simpl. destruct (is_slash c) eqn:Hc.
  - destruct (split_slash rest) as [| b [| y l]]; reflexivity.
  - rewrite IH.
    destruct (match_slash_segment_end_split rest) as [Hend Hshape].
    destruct (match_slash_segment_end rest) as [name |] eqn:Hname.
    + specialize (Hshape name eq_refl). subst rest.
      simpl in Hend |- *.
      destruct (split_slash name) as [| b [| y l]]; simpl in *;
        try discriminate.
      destruct (nonempty b); [ | discriminate ].
      now injection Hend as <-.
    + destruct (split_slash rest) as [| x [| b [| y l]]]; simpl in *;
        try reflexivity.
      destruct x; simpl in *; destruct (nonempty b);
        try discriminate; reflexivity.
Qed.

Lemma join_split_slash s : join_slash (split_slash s) = s.
Proof.
  induction s as [| c rest IH]; [ reflexivity | ].
  simpl. destruct (is_slash c) eqn:Hc.
  - apply is_slash_eq in Hc. subst c.
    destruct (split_slash rest) as [| x l] eqn:Hs.
    + destruct rest; simpl in Hs; [ discriminate | ].
      destruct (is_slash a); [ discriminate | ].
      destruct (split_slash rest); discriminate.
    + simpl. simpl in IH. now rewrite IH.
  - destruct (split_slash rest) as [| x l] eqn:Hs.
    + simpl in IH. now subst rest.
    + destruct l as [| y l]; simpl in IH |- *; now rewrite <- IH.
Qed.

(** The match of [/([^/]+\/[^/]+)$/] is the last two segments of the path,
    when there are two and neither is empty; otherwise there is no
    match. *)
Lemma match_repoFullName_last_two_segments s :
  match_repoFullName s = last_two_segments s.
Proof.
  induction s as [| c rest IH]; [ reflexivity | ].
  unfold match_repoFullName; fold match_repoFullName.
  rewrite match_repo_here_split.
  destruct (two_nonempty (split_slash (String c rest))) eqn:Htwo.
  - unfold last_two_segments.
    pose proof (join_split_slash (String c rest)) as Hjoin.
    destruct (split_slash (String c rest)) as [| a [| b [| y l]]];
      try discriminate.
    simpl in Htwo |- *. rewrite Htwo. simpl in Hjoin. rewrite <- Hjoin.
    reflexivity.
  - rewrite IH. unfold last_two_segments. simpl in Htwo |- *.
    destruct (is_slash c).
    + destruct (split_slash rest) as [| b [| y l]]; reflexivity.
    + destruct (split_slash rest) as [| x [| b [| y l]]]; try reflexivity.
      simpl in Htwo |- *. rewrite Htwo.
      now destruct (nonempty x).
Qed.

(** C9, as the code has it.  A [projectId] that is set (truthy) is
    returned as it is.  Otherwise, when [projectPath] ends in two
    [/]-delimited segments that are both non-empty, the result is these two
    segments joined by [/]; when it does not, the match is [null] and
    destructuring it raises a [TypeError].  In particular the path
    org/repo/sub with no [projectId] gives repo/sub. *)
Theorem getProjectId_resolution (w : World) (projectPath : string) (projectId : JsVal) :
  (truthy projectId = true ->
     getProjectId projectPath projectId w = (Ok projectId, w))
  /\ (truthy projectId = false ->
        getProjectId projectPath projectId w
        = match last_two_segments projectPath with
          | Some repoFullName => (Ok (JsString repoFullName), w)
          | None => (Throw (TypeError "object null is not iterable"), w)
          end)
  /\ getProjectId "org/repo/sub" JsUndefined w = (Ok (JsString "repo/sub"), w).
Proof.
  split; [ | split ].
  - intros Hset. unfold getProjectId. now rewrite Hset.
  - intros Hunset. unfold getProjectId. rewrite Hunset.
    rewrite match_repoFullName_last_two_segments.
    now destruct (last_two_segments projectPath).
  - reflexivity.
Qed.

Lemma getProjectId_resolution_witness :
  let w := empty_world (sample_env false false false (Num 3600) "alice") in
  getProjectId "org/repo/sub" (JsNumber 42) w = (Ok (JsNumber 42), w)
  /\ getProjectId "https://git.example.com/org/repo" JsUndefined w
     = (Ok (JsString "org/repo"), w).
Proof.
  intros w. split.
  - apply (getProjectId_resolution w "org/repo/sub" (JsNumber 42)).
    reflexivity.
  - destruct (getProjectId_resolution w "https://git.example.com/org/repo"
                                      JsUndefined) as (_ & Hpath & _).
    rewrite Hpath; reflexivity.
Defined.

(** C9 as stated fails on a path with a trailing slash: the last two
    segments of org/repo/ are repo and the empty string, but nothing is
    returned, the call raises.  The same happens on a path of one
    segment. *)
Lemma getProjectId_trailing_slash_throws :
  let w := empty_world (sample_env false false false (Num 3600) "alice") in
  last_two (split_slash "org/repo/") = Some ("repo", "")
  /\ getProjectId "org/repo/" JsUndefined w
     = (Throw (TypeError "object null is not iterable"), w)
  /\ getProjectId "repo" JsUndefined w
     = (Throw (TypeError "object null is not iterable"), w).
Proof. repeat split. Qed.

(** * Further properties of the module *)

(** ** request *)

Lemma get_field_set_field_eq {V} (key : string) (value : V) fields :
  get_field key (set_field key value fields) = Some value.
Proof.
  induction fields as [| [k v] rest IH]; simpl.
  - now rewrite String.eqb_refl.
  - destruct (String.eqb k key) eqn:Hk; simpl; now rewrite Hk.
Qed.

Lemma get_field_set_field_ne {V} (key other : string) (value : V) fields :
  other <> key ->
  get_field other (set_field key value fields) = get_field other fields.
Proof.
  intros Hne. induction fields as [| [k v] rest IH]; simpl.
  - apply not_eq_sym in Hne. apply String.eqb_neq in Hne. now rewrite Hne.
  - destruct (String.eqb k key) eqn:Hk; simpl.
    + apply String.eqb_eq in Hk. subst k.
      apply not_eq_sym in Hne. apply String.eqb_neq in Hne. now rewrite Hne.
    + now rewrite IH.
Qed.

Lemma set_field_length {V} (key : string) (value : V) fields :
  get_field key fields <> None ->
  length (set_field key value fields) = length fields.
Proof.
  induction fields as [| [k v] rest IH]; simpl; [ congruence | ].
  destruct (String.eqb k key); simpl; [ reflexivity | ].
  intros H. now rewrite IH.
Qed.

(** X1.  [request] makes exactly one call of [networkSvc.request].  The
    url sent is the server url, [/api/v1/] and the url asked for; the
    [Authorization] header sent is the bearer of the access token, whatever
    [Authorization] header the caller's options had; every other header,
    the method, the parameters and the body go out as the caller gave
    them. *)
Theorem request_sends_bearer
    (accessToken serverUrl : string) (options : Options.t) (w : World) :
  exists sent,
    events_since w (snd (request accessToken serverUrl options w)) = [EvRequest sent]
    /\ Options.url sent = serverUrl +:+ "/api/v1/" +:+ Options.url options
    /\ get_field "Authorization" (Options.headers sent)
       = Some ("Bearer " +:+ accessToken)
    /\ (forall other, other <> "Authorization" ->
          get_field other (Options.headers sent)
          = get_field other (Options.headers options))
    /\ Options.method sent = Options.method options
    /\ Options.params sent = Options.params options
    /\ Options.body sent = Options.body options.
Proof.
  eexists. split.
  - apply events_since_app. unfold request. apply networkSvc_request_trace.
  - simpl. split; [ reflexivity | ]. split; [ apply get_field_set_field_eq | ].
    split; [ | repeat split ].
    intros other Hne. now apply get_field_set_field_ne.
Qed.

(** ** The identity resolver, resolved *)

(** X2.  When the [sub] splits into server and user name and the profile
    lookup resolves, the resolver makes that one call, without any header,
    on [{server}/api/v1/users/{name}], and resolves to the identity built
    from the user name the server reported: the id is the prefix [gt], a
    colon, the server, a slash and that name; the image is the avatar url,
    or the empty string when the avatar url is falsy. *)
Theorem infoResolver_resolves
    (w w' : World) (sub serverUrl username : string) (user : Body.t) :
  match_sub sub = Some (serverUrl, username) ->
  networkSvc_request (profileOptions serverUrl username) w = (Ok user, w') ->
  infoResolver sub w
  = (Ok (UserInfo.mk ("gt:" +:+ serverUrl +:+ "/" +:+ Body.username user)
                     (Body.username user)
                     (if truthy (Body.avatar_url user) then Body.avatar_url user
                      else JsString "")), w')
  /\ events_since w w'
     = [EvRequest (Options.mk None (serverUrl +:+ "/api/v1/users/" +:+ username)
                              [] [] [])].
Proof.
  intros Hmatch Hreq. split.
  - unfold infoResolver, try_catch. rewrite Hmatch.
    unfold bind at 1. rewrite Hreq. reflexivity.
  - apply events_since_app.
    pose proof (networkSvc_request_trace (profileOptions serverUrl username) w) as Ht.
    now rewrite Hreq in Ht.
Qed.

Lemma infoResolver_resolves_witness :
  let w := empty_world (sample_env false false false (Num 3600) "Alice") in
  fst (infoResolver alice_sub w)
  = Ok (UserInfo.mk "gt:https://git.example.com/Alice" "Alice" (JsString "")).
Proof.
  intros w.
  pose (w' := snd (networkSvc_request
                     (profileOptions "https://git.example.com" "alice") w)).
  destruct (infoResolver_resolves w w' alice_sub "https://git.example.com" "alice"
                                  (sample_body (Num 3600) "Alice"))
    as [Hrun _].
  - reflexivity.
  - reflexivity.
  - rewrite Hrun. reflexivity.
Defined.

(** ** The pattern of the resolver and the [sub] of [startOauth2] *)

Lemma match_slash_segment_end_no_slash s :
  no_slash s = true -> match_slash_segment_end s = None.
Proof.
  destruct s as [| c rest]; simpl; [ reflexivity | ].
  now destruct (is_slash c).
Qed.

Lemma match_sub_unfold c rest :
  match_sub (String c rest)
  = if at_line_terminator (String c rest) then None
    else
      match match_sub rest with
      | Some (serverUrl, username) => Some (String c serverUrl, username)
      | None =>
          match match_slash_segment_end rest with
          | Some username => Some (String c EmptyString, username)
          | None => None
          end
      end.
Proof. reflexivity. Qed.

Lemma match_sub_no_slash s : no_slash s = true -> match_sub s = None.
Proof.
  induction s as [| c rest IH]; [ reflexivity | ].
  intros H. simpl in H. apply andb_true_iff in H as [_ Hrest].
  rewrite match_sub_unfold, (IH Hrest), (match_slash_segment_end_no_slash _ Hrest).
  now destruct (at_line_terminator (String c rest)).
Qed.

Lemma match_slash_segment_end_slash name :
  nonempty name = true -> no_slash name = true ->
  match_slash_segment_end (String "/" name) = Some name.
Proof. intros Hne Hns. simpl. now rewrite Hne, Hns. Qed.

(** A line terminator that starts in front of a slash ends in front of
    it: the slash is none of its bytes. *)
Lemma at_line_terminator_before_slash c a b :
  at_line_terminator (String c (a +:+ String "/" b))
  = at_line_terminator (String c a).
Proof.
  destruct a as [| d [| e a']]; unfold at_line_terminator;
    [ change ("" +:+ String "/" b) with (String "/" b)
    | change (String d "" +:+ String "/" b) with (String d (String "/" b))
    | change (String d (String e a') +:+ String "/" b)
        with (String d (String e (a' +:+ String "/" b))) ];
    try reflexivity.
  - destruct b as [| e b']; [ reflexivity | ].
    change (Ascii.eqb "/" "128") with false. reflexivity.
  - cbv iota.
    change (Ascii.eqb "/" "168") with false.
    change (Ascii.eqb "/" "169") with false.
    now rewrite andb_false_r.
Qed.

(** What a match of [/^(.+)\/([^/]+)$/] says about the input. *)
Lemma match_sub_sound s :
  forall serverUrl username,
    match_sub s = Some (serverUrl, username) ->
    s = serverUrl +:+ "/" +:+ username
    /\ nonempty serverUrl = true
    /\ no_line_terminator serverUrl = true
    /\ nonempty username = true
    /\ no_slash username = true.
Proof.
  induction s as [| c rest IH]; [ discriminate | ].
  intros serverUrl username. rewrite match_sub_unfold.
  destruct (at_line_terminator (String c rest)) eqn:Hc; [ discriminate | ].
  destruct (match_sub rest) as [[a b] |] eqn:Hrest.
  - intros [= <- <-].
    destruct (IH a b eq_refl) as (Heq & Ha & Hlt & Hb & Hns).
    rewrite Heq in Hc.
    change (a +:+ "/" +:+ b) with (a +:+ String "/" b) in Hc.
    rewrite at_line_terminator_before_slash in Hc.
    split; [ now rewrite Heq | ]. split; [ reflexivity | ].
    split; [ | split; assumption ].
    change (no_line_terminator (String c a))
      with (negb (at_line_terminator (String c a)) && no_line_terminator a).
    now rewrite Hc, Hlt.
  - destruct rest as [| d rest']; [ discriminate | ].
    unfold match_slash_segment_end.
    destruct (is_slash d) eqn:Hd; simpl; [ | discriminate ].
    destruct (nonempty rest') eqn:Hne; simpl; [ | discriminate ].
    destruct (no_slash rest') eqn:Hns; [ | discriminate ].
    intros [= <- <-]. apply is_slash_eq in Hd. subst d.
    change (String c (String "/" rest'))
      with (String c ("" +:+ String "/" rest')) in Hc.
    rewrite at_line_terminator_before_slash in Hc.
    split; [ reflexivity | ]. split; [ reflexivity | ].
    split; [ | split; assumption ].
    change (no_line_terminator (String c ""))
      with (negb (at_line_terminator (String c "")) && true).
    now rewrite Hc.
Qed.

(** X3.  The resolver's pattern takes apart what [startOauth2] puts
    together.  A [sub] made of a server url, a slash and a user name is
    split at its last slash into that server url and that name, provided
    the url is not empty and holds no line terminator (LF, CR, U+2028,
    U+2029) and the name is not empty and has no slash; and whatever the
    pattern matches is of that form, with a url and a name as just
    said. *)
Theorem match_sub_inverts_sub (sub serverUrl username : string) :
  (nonempty serverUrl = true ->
   no_line_terminator serverUrl = true ->
   nonempty username = true ->
   no_slash username = true ->
   match_sub (serverUrl +:+ "/" +:+ username) = Some (serverUrl, username))
  /\ (match_sub sub = Some (serverUrl, username) ->
      sub = serverUrl +:+ "/" +:+ username
      /\ nonempty serverUrl = true
      /\ no_line_terminator serverUrl = true
      /\ nonempty username = true
      /\ no_slash username = true).
Proof.
  split; [ | apply match_sub_sound ].
  intros Hne Hlt Hun Hns. clear sub.
  induction serverUrl as [| c rest IH]; [ discriminate | ].
  change (no_line_terminator (String c rest))
    with (negb (at_line_terminator (String c rest)) && no_line_terminator rest)
    in Hlt.
  apply andb_true_iff in Hlt as [Hc Hrest]. apply negb_true_iff in Hc.
  change (String c rest +:+ "/" +:+ username)
    with (String c (rest +:+ String "/" username)).
  rewrite match_sub_unfold, at_line_terminator_before_slash, Hc.
  destruct rest as [| d rest'].
  - change ("" +:+ String "/" username) with (String "/" username).
    rewrite match_sub_unfold.
    rewrite (match_sub_no_slash _ Hns),
            (match_slash_segment_end_no_slash _ Hns),
            (match_slash_segment_end_slash _ Hun Hns).
    now destruct (at_line_terminator (String "/" username)).
  - change (String d rest' +:+ String "/" username)
      with (String d rest' +:+ "/" +:+ username).
    now rewrite (IH eq_refl Hrest).
Qed.

Lemma match_sub_inverts_sub_witness :
  match_sub ("https://git.example.com/gitea" +:+ "/" +:+ "alice")
  = Some ("https://git.example.com/gitea", "alice").
Proof.
  apply (match_sub_inverts_sub "" "https://git.example.com/gitea" "alice");
    reflexivity.
Defined.

(** The line separator U+2028 stops the pattern in the server part and
    not in the name. *)
Example match_sub_line_separator :
  let separator := String "226" (String "128" (String "168" "")) in
  match_sub ("https://git" +:+ separator +:+ ".example.com/alice") = None
  /\ match_sub ("https://git.example.com/al" +:+ separator +:+ "ice")
     = Some ("https://git.example.com", "al" +:+ separator +:+ "ice").
Proof. split; vm_compute; reflexivity. Qed.

(** ** startOauth2, beyond the check of the [sub] *)

(** Up to the check of the [sub], a run only talks to the network and
    leaves the Token Store alone. *)
Lemma startOauth2_lookups
    (w w1 w2 : World) (serverUrl applicationId applicationSecret : string)
    (silent : bool) (rt : JsVal) (tokenBody user : Body.t) :
  exchangeToken serverUrl applicationId applicationSecret silent rt w
  = (Ok tokenBody, w1) ->
  request (Body.access_token tokenBody) serverUrl userOptions w1 = (Ok user, w2) ->
  giteaTokensBySub w2 = giteaTokensBySub w
  /\ exists d, trace w2 = trace w ++ d /\ forallb is_network_call d = true.
Proof.
  intros Hex Hreq.
  pose proof (exchangeToken_store serverUrl applicationId applicationSecret
                                  silent rt w) as Hs1.
  rewrite Hex in Hs1. simpl in Hs1.
  pose proof (networkSvc_request_store
                (Options.mk None (serverUrl +:+ "/api/v1/user")
                   [("Authorization", "Bearer " +:+ Body.access_token tokenBody)]
                   [] []) w1) as Hs2.
  change (networkSvc_request _ w1)
    with (request (Body.access_token tokenBody) serverUrl userOptions w1) in Hs2.
  rewrite Hreq in Hs2. simpl in Hs2.
  split; [ congruence | ].
  destruct (appends_network_exchangeToken serverUrl applicationId applicationSecret
                                          silent rt w) as (d1 & Ht1 & Hp1 & _).
  rewrite Hex in Ht1. simpl in Ht1.
  destruct (appends_request is_network_call (Body.access_token tokenBody)
                            serverUrl userOptions (fun _ _ => eq_refl) w1)
    as (d2 & Ht2 & Hp2 & _).
  rewrite Hreq in Ht2. simpl in Ht2.
  exists (d1 ++ d2). split.
  - now rewrite Ht2, Ht1, <- app_assoc.
  - now rewrite forallb_app, Hp1, Hp2.
Qed.

Lemma network_call_not_token_write e :
  is_network_call e = true -> is_token_write e = false.
Proof. now destruct e. Qed.

(** X4.  However [startOauth2] fails -- the popup is closed, the token
    endpoint or the user endpoint rejects, the account is not the expected
    one -- the Token Store is what it was before the call and no
    [data/addGiteaToken] dispatch was made. *)
Theorem startOauth2_rejection_keeps_store
    (w w' : World) (serverUrl applicationId applicationSecret : string)
    (sub : option string) (silent : bool) (rt : JsVal) (err : JsError) :
  startOauth2 serverUrl applicationId applicationSecret sub silent rt w
  = (Throw err, w') ->
  giteaTokensBySub w' = giteaTokensBySub w
  /\ List.filter is_token_write (events_since w w') = [].
Proof.
  intros Hrun.
  destruct (exchangeToken serverUrl applicationId applicationSecret silent rt w)
    as [[tokenBody | e1] w1] eqn:Hex.
  - destruct (request (Body.access_token tokenBody) serverUrl userOptions w1)
      as [[user | e2] w2] eqn:Hreq.
    + destruct (startOauth2_lookups _ _ _ _ _ _ _ _ _ _ Hex Hreq)
        as (Hstore & d & Ht & Hp).
      rewrite (startOauth2_resolved _ _ _ _ _ _ _ _ _ _ _ Hex Hreq) in Hrun.
      destruct (sub_mismatch _ _); [ | discriminate ].
      injection Hrun as _ <-. simpl. split; [ exact Hstore | ].
      erewrite events_since_app
        by (simpl; rewrite Ht, <- app_assoc; reflexivity).
      rewrite List.filter_app. simpl.
      now rewrite (filter_nil_of_forallb is_network_call is_token_write d
                     network_call_not_token_write Hp).
    + unfold startOauth2 in Hrun. unfold bind at 1 in Hrun. rewrite Hex in Hrun.
      unfold bind at 1 in Hrun. rewrite Hreq in Hrun.
      injection Hrun as _ <-.
      pose proof (exchangeToken_store serverUrl applicationId applicationSecret
                                      silent rt w) as Hs1.
      rewrite Hex in Hs1. simpl in Hs1.
      pose proof (networkSvc_request_store
                    (Options.mk None (serverUrl +:+ "/api/v1/user")
                       [("Authorization",
                         "Bearer " +:+ Body.access_token tokenBody)] [] []) w1)
        as Hs2.
      change (networkSvc_request _ w1)
        with (request (Body.access_token tokenBody) serverUrl userOptions w1)
        in Hs2.
      rewrite Hreq in Hs2. simpl in Hs2.
      split; [ congruence | ].
      destruct (appends_network_exchangeToken
                  serverUrl applicationId applicationSecret silent rt w)
        as (d1 & Ht1 & Hp1 & _).
      rewrite Hex in Ht1. simpl in Ht1.
      destruct (appends_request is_network_call (Body.access_token tokenBody)
                                serverUrl userOptions (fun _ _ => eq_refl) w1)
        as (d2 & Ht2 & Hp2 & _).
      rewrite Hreq in Ht2. simpl in Ht2.
      erewrite events_since_app by (rewrite Ht2, Ht1, <- app_assoc; reflexivity).
      rewrite List.filter_app.
      now rewrite !(filter_nil_of_forallb is_network_call is_token_write _
                      network_call_not_token_write) by assumption.
  - unfold startOauth2 in Hrun. unfold bind at 1 in Hrun. rewrite Hex in Hrun.
    injection Hrun as _ <-.
    pose proof (exchangeToken_store serverUrl applicationId applicationSecret
                                    silent rt w) as Hs1.
    rewrite Hex in Hs1. simpl in Hs1. split; [ exact Hs1 | ].
    destruct (appends_network_exchangeToken
                serverUrl applicationId applicationSecret silent rt w)
      as (d1 & Ht1 & Hp1 & _).
    rewrite Hex in Ht1. simpl in Ht1.
    rewrite (events_since_app _ _ _ Ht1).
    now apply (filter_nil_of_forallb is_network_call is_token_write d1
                 network_call_not_token_write).
Qed.

Lemma startOauth2_rejection_keeps_store_witness :
  let w := sample_world (failing_env (Some 502)) (alice_token (Num 1)) in
  let run := startOauth2 "https://git.example.com" "app-id" "app-secret"
                         (Some alice_sub) true (JsString "r1") w in
  giteaTokensBySub (snd run) = giteaTokensBySub w
  /\ List.filter is_token_write (events_since w (snd run)) = [].
Proof.
  intros w run.
  apply (startOauth2_rejection_keeps_store
           w (snd run) "https://git.example.com" "app-id" "app-secret"
           (Some alice_sub) true (JsString "r1")
           (Rejection (Some 502) "request failed")).
  reflexivity.
Defined.

(** X5.  A successful [startOauth2] resolves to a token that carries the
    server url and the application id and secret it was called with; its
    [sub] is the server url, a slash and its [name], and it is the expected
    [sub] when a non-empty one was passed.  The Token Store afterwards is
    the store before with this token put under its [sub]: entries of other
    accounts are untouched.  The dispatch of the token is the last call of
    the run and the only write. *)
Theorem startOauth2_success_stores_token
    (w w' : World) (serverUrl applicationId applicationSecret : string)
    (sub : option string) (silent : bool) (rt : JsVal) (token : Token.t) :
  startOauth2 serverUrl applicationId applicationSecret sub silent rt w
  = (Ok token, w') ->
  Token.serverUrl token = serverUrl
  /\ Token.applicationId token = applicationId
  /\ Token.applicationSecret token = applicationSecret
  /\ Token.sub token = serverUrl +:+ "/" +:+ Token.name token
  /\ (forall expected, sub = Some expected -> expected <> "" ->
        Token.sub token = expected)
  /\ giteaTokensBySub w' = <[Token.sub token := token]> (giteaTokensBySub w)
  /\ (forall other, other <> Token.sub token ->
        giteaTokensBySub w' !! other = giteaTokensBySub w !! other)
  /\ (exists d, events_since w w' = d ++ [EvAddGiteaToken token]
                /\ List.filter is_token_write d = []).
Proof.
  intros Hrun.
  destruct (exchangeToken serverUrl applicationId applicationSecret silent rt w)
    as [[tokenBody | e1] w1] eqn:Hex;
    [ | unfold startOauth2 in Hrun; unfold bind at 1 in Hrun;
        rewrite Hex in Hrun; discriminate ].
  destruct (request (Body.access_token tokenBody) serverUrl userOptions w1)
    as [[user | e2] w2] eqn:Hreq;
    [ | unfold startOauth2 in Hrun; unfold bind at 1 in Hrun;
        rewrite Hex in Hrun; unfold bind at 1 in Hrun;
        rewrite Hreq in Hrun; discriminate ].
  destruct (startOauth2_lookups _ _ _ _ _ _ _ _ _ _ Hex Hreq)
    as (Hstore & d & Ht & Hp).
  rewrite (startOauth2_resolved _ _ _ _ _ _ _ _ _ _ _ Hex Hreq) in Hrun.
  destruct (sub_mismatch sub _) eqn:Hmis; [ discriminate | ].
  injection Hrun as <- <-. simpl.
  repeat match goal with |- _ /\ _ => split end; try reflexivity.
  - intros expected -> Hne. simpl in Hmis.
    apply String.eqb_neq in Hne. rewrite Hne in Hmis. simpl in Hmis.
    apply negb_false_iff in Hmis. now apply String.eqb_eq in Hmis.
  - now rewrite Hstore.
  - intros other Hne. rewrite lookup_insert_ne by congruence. now rewrite Hstore.
  - exists (d ++ [EvAddUserInfo
                    (UserInfo.mk
                       (subPrefix +:+ ":" +:+ serverUrl +:+ "/" +:+ Body.username user)
                       (Body.username user)
                       (js_or (Body.avatar_url user) (JsString "")))]).
    split.
    + apply events_since_app. simpl. rewrite Ht.
      now rewrite <- (app_assoc (trace w)), <- (app_assoc (trace w)),
                  <- (app_assoc d).
    + rewrite List.filter_app. simpl.
      now rewrite (filter_nil_of_forallb is_network_call is_token_write d
                     network_call_not_token_write Hp).
Qed.

Lemma startOauth2_success_stores_token_witness :
  let bob := Token.mk "b1" "bob" "app-id" "app-secret" (JsString "rb") (Num 1)
                      "https://git.example.com" "https://git.example.com/bob" in
  let w := mkWorld (sample_env false false false (Num 3600) "alice")
                   (<["https://git.example.com/bob" := bob]> ∅)
                   false sample_settings sample_now [] in
  let run := startOauth2 "https://git.example.com" "app-id" "app-secret"
                         None false JsUndefined w in
  giteaTokensBySub (snd run) !! "https://git.example.com/bob" = Some bob
  /\ giteaTokensBySub (snd run) !! alice_sub
     = Some (Token.mk "a2" "alice" "app-id" "app-secret" (JsString "r2")
                      (Num 1793581205240) "https://git.example.com" alice_sub).
Proof.
  intros bob w run.
  pose (token := Token.mk "a2" "alice" "app-id" "app-secret" (JsString "r2")
                          (Num 1793581205240) "https://git.example.com" alice_sub).
  destruct (startOauth2_success_stores_token
              w (snd run) "https://git.example.com" "app-id" "app-secret"
              None false JsUndefined token)
    as (_ & _ & _ & _ & _ & Hstore & Hother & _).
  - vm_compute. reflexivity.
  - split.
    + rewrite Hother; [ reflexivity | discriminate ].
    + rewrite Hstore. apply lookup_insert_eq.
Defined.

(** X6.  The calls of [startOauth2].  No run opens the modal prompt or
    awards a badge.  A silent run never calls [networkSvc.startOauth2], so
    no redirect or popup; a run that is not silent never sends a
    refresh-token grant. *)
Theorem startOauth2_call_discipline
    (w : World) (serverUrl applicationId applicationSecret : string)
    (sub : option string) (silent : bool) (rt : JsVal) :
  let calls :=
    events_since w (snd (startOauth2 serverUrl applicationId applicationSecret
                                     sub silent rt w)) in
  List.filter is_modal calls = []
  /\ List.filter is_badge calls = []
  /\ (if silent
      then List.filter (fun e => match e with
                                 | EvStartOauth2 _ _ _ => true
                                 | _ => false
                                 end) calls = []
      else List.filter is_silent_exchange calls = []).
Proof.
  intros calls. subst calls.
  destruct (startOauth2_trace serverUrl applicationId applicationSecret
                              sub silent rt w) as (d & Ht & Hp).
  rewrite (events_since_app _ _ _ Ht).
  split; [ | split ].
  - apply (filter_nil_of_forallb (startOauth2_event silent)); [ | exact Hp ].
    intros e. apply startOauth2_event_not_modal.
  - apply (filter_nil_of_forallb (startOauth2_event silent)); [ | exact Hp ].
    intros e. now destruct e.
  - destruct silent.
    + apply (filter_nil_of_forallb (startOauth2_event true)); [ | exact Hp ].
      intros e. now destruct e.
    + apply (filter_nil_of_forallb (startOauth2_event false)); [ | exact Hp ].
      intros e He. apply startOauth2_event_interactive_not_silent in He.
      now destruct (is_silent_exchange e).
Qed.

(** X8.  Once the token exchange and the user lookup have resolved,
    [startOauth2] succeeds whenever no [sub] was expected or the expected
    one is the server url, a slash and the reported user name; the token
    it resolves to has that [sub] and that name, the access and refresh
    tokens of the token response, and is the stored entry of its [sub]. *)
Theorem startOauth2_succeeds_on_expected_sub
    (w w1 w2 : World) (serverUrl applicationId applicationSecret : string)
    (sub : option string) (silent : bool) (rt : JsVal) (tokenBody user : Body.t) :
  exchangeToken serverUrl applicationId applicationSecret silent rt w
  = (Ok tokenBody, w1) ->
  request (Body.access_token tokenBody) serverUrl userOptions w1 = (Ok user, w2) ->
  sub = None \/ sub = Some (serverUrl +:+ "/" +:+ Body.username user) ->
  exists token w',
    startOauth2 serverUrl applicationId applicationSecret sub silent rt w
    = (Ok token, w')
    /\ Token.sub token = serverUrl +:+ "/" +:+ Body.username user
    /\ Token.name token = Body.username user
    /\ Token.accessToken token = Body.access_token tokenBody
    /\ Token.refreshToken token = Body.refresh_token tokenBody
    /\ giteaTokensBySub w' !! Token.sub token = Some token.
Proof.
  intros Hex Hreq Hsub.
  rewrite (startOauth2_resolved _ _ _ _ _ _ _ _ _ _ _ Hex Hreq).
  assert (Hmis : sub_mismatch sub (serverUrl +:+ "/" +:+ Body.username user)
                 = false).
  { destruct Hsub as [-> | ->]; simpl; [ reflexivity | ].
    rewrite String.eqb_refl. apply andb_false_r. }
  rewrite Hmis. eexists _, _. split; [ reflexivity | ]. simpl.
  repeat split. apply lookup_insert_eq.
Qed.

Lemma startOauth2_succeeds_on_expected_sub_witness :
  let w := sample_world (sample_env false false false (Num 3600) "alice")
                        (alice_token (Num 1)) in
  exists token w',
    startOauth2 "https://git.example.com" "app-id" "app-secret"
                (Some alice_sub) true (JsString "r1") w = (Ok token, w')
    /\ Token.sub token = alice_sub
    /\ Token.accessToken token = "a2".
Proof.
  intros w.
  pose (ex := exchangeToken "https://git.example.com" "app-id" "app-secret"
                            true (JsString "r1") w).
  pose (rq := request "a2" "https://git.example.com" userOptions (snd ex)).
  destruct (startOauth2_succeeds_on_expected_sub
              w (snd ex) (snd rq) "https://git.example.com" "app-id" "app-secret"
              (Some alice_sub) true (JsString "r1")
              (sample_body (Num 3600) "alice") (sample_body (Num 3600) "alice"))
    as (token & w' & Hrun & Hsub & _ & Hacc & _).
  - vm_compute. reflexivity.
  - vm_compute. reflexivity.
  - right. reflexivity.
  - exists token, w'. split; [ exact Hrun | ]. split; [ exact Hsub | exact Hacc ].
Defined.

(** ** refreshToken, when the refresh goes through *)

(** A successful [startOauth2], taken apart. *)
Lemma startOauth2_success_inv
    (w w' : World) (serverUrl applicationId applicationSecret : string)
    (sub : option string) (silent : bool) (rt : JsVal) (token : Token.t) :
  startOauth2 serverUrl applicationId applicationSecret sub silent rt w
  = (Ok token, w') ->
  exists tokenBody w1,
    exchangeToken serverUrl applicationId applicationSecret silent rt w
    = (Ok tokenBody, w1)
    /\ sub_mismatch sub (Token.sub token) = false
    /\ giteaTokensBySub w' !! Token.sub token = Some token
    /\ Token.expiresOn token
       = num_add (Z.of_N (now w')) (num_mul (Body.expires_in tokenBody) 1000).
Proof.
  intros Hrun.
  destruct (exchangeToken serverUrl applicationId applicationSecret silent rt w)
    as [[tokenBody | e1] w1] eqn:Hex;
    [ | unfold startOauth2 in Hrun; unfold bind at 1 in Hrun;
        rewrite Hex in Hrun; discriminate ].
  exists tokenBody, w1. split; [ reflexivity | ].
  destruct (startOauth2_success _ _ _ _ _ _ _ _ _ _ _ Hex Hrun) as [Hst Hexp].
  split; [ | split; assumption ].
  destruct (request (Body.access_token tokenBody) serverUrl userOptions w1)
    as [[user | e2] w2] eqn:Hreq;
    [ | unfold startOauth2 in Hrun; unfold bind at 1 in Hrun;
        rewrite Hex in Hrun; unfold bind at 1 in Hrun;
        rewrite Hreq in Hrun; discriminate ].
  rewrite (startOauth2_resolved _ _ _ _ _ _ _ _ _ _ _ Hex Hreq) in Hrun.
  destruct (sub_mismatch sub _) eqn:Hmis; [ discriminate | ].
  injection Hrun as <- _. exact Hmis.
Qed.

Lemma sub_mismatch_false_eq (expected uniqueSub : string) :
  expected <> "" -> sub_mismatch (Some expected) uniqueSub = false ->
  uniqueSub = expected.
Proof.
  intros Hne Hmis. simpl in Hmis.
  apply String.eqb_neq in Hne. rewrite Hne in Hmis. simpl in Hmis.
  apply negb_false_iff in Hmis. now apply String.eqb_eq in Hmis.
Qed.

(** X9.  The stored token is at or past the margin and the silent
    [startOauth2] with the stored refresh token succeeds: [refreshToken]
    resolves to the new token, which is now the stored entry, under the
    same [sub] as before when that [sub] is not empty; the run opened no
    modal prompt and no redirect or popup. *)
Theorem refreshToken_silent_refresh_succeeds
    (w w1 : World) (token lastToken refreshed : Token.t) (expiresOn : Z) :
  giteaTokensBySub w !! Token.sub token = Some lastToken ->
  Token.expiresOn lastToken = Num expiresOn ->
  expiresOn <> 0 ->
  expiresOn <= Z.of_N (now w) + 5 * 60 * 1000 ->
  startOauth2 (Token.serverUrl token) (Token.applicationId token)
              (Token.applicationSecret token) (Some (Token.sub token))
              true (Token.refreshToken lastToken) w = (Ok refreshed, w1) ->
  refreshToken token w = (Ok refreshed, w1)
  /\ giteaTokensBySub w1 !! Token.sub refreshed = Some refreshed
  /\ (Token.sub token <> "" -> Token.sub refreshed = Token.sub token)
  /\ List.filter is_modal (events_since w w1) = []
  /\ List.filter is_interactive_authorization (events_since w w1) = [].
Proof.
  intros Hstored Hexp Hnz Hle Hsilent.
  split.
  { rewrite (refreshToken_stored _ _ _ Hstored), Hexp. simpl.
    apply Z.eqb_neq in Hnz. rewrite Hnz. simpl.
    assert (Hlt : (Z.of_N (now w) + tokenExpirationMargin <? expiresOn) = false)
      by (apply Z.ltb_ge; unfold tokenExpirationMargin; lia).
    rewrite Hlt. unfold try_catch. now rewrite Hsilent. }
  destruct (startOauth2_success_inv _ _ _ _ _ _ _ _ _ Hsilent)
    as (tokenBody & w0 & _ & Hmis & Hst & _).
  split; [ exact Hst | ]. split.
  { intros Hne. now apply sub_mismatch_false_eq. }
  destruct (startOauth2_trace
              (Token.serverUrl token) (Token.applicationId token)
              (Token.applicationSecret token) (Some (Token.sub token))
              true (Token.refreshToken lastToken) w) as (d & Ht & Hp).
  rewrite Hsilent in Ht. simpl in Ht. rewrite (events_since_app _ _ _ Ht).
  split.
  - apply (filter_nil_of_forallb (startOauth2_event true)); [ | exact Hp ].
    intros e. apply startOauth2_event_not_modal.
  - apply (filter_nil_of_forallb (startOauth2_event true)); [ | exact Hp ].
    intros e. apply startOauth2_event_silent_not_interactive.
Qed.

Lemma refreshToken_silent_refresh_succeeds_witness :
  let stored := alice_token (Num 1793577599000) in
  let w := sample_world (sample_env false false false (Num 3600) "alice") stored in
  let refreshed := Token.mk "a2" "alice" "app-id" "app-secret" (JsString "r2")
                            (Num 1793581200240) "https://git.example.com"
                            alice_sub in
  fst (refreshToken stored w) = Ok refreshed
  /\ giteaTokensBySub (snd (refreshToken stored w)) !! alice_sub = Some refreshed.
Proof.
  intros stored w refreshed.
  pose (w1 := snd (startOauth2 (Token.serverUrl stored) (Token.applicationId stored)
                               (Token.applicationSecret stored)
                               (Some (Token.sub stored)) true
                               (Token.refreshToken stored) w)).
  destruct (refreshToken_silent_refresh_succeeds
              w w1 stored stored refreshed 1793577599000)
    as (Hrun & Hst & _).
  - reflexivity.
  - reflexivity.
  - discriminate.
  - vm_compute. discriminate.
  - vm_compute. reflexivity.
  - rewrite Hrun. split; [ reflexivity | exact Hst ].
Defined.

(** X10.  A token just acquired is not refreshed again.  After a
    successful [startOauth2] whose token response granted a whole number
    of seconds above 300, with the current time plus the lifetime in
    milliseconds below 2^53, [refreshToken] for any token of the same
    [sub] resolves to the acquired token at once, without a call. *)
Theorem refreshToken_after_acquisition_is_idle
    (w w1 w' : World) (serverUrl applicationId applicationSecret : string)
    (sub : option string) (silent : bool) (rt : JsVal)
    (tokenBody : Body.t) (token passed : Token.t) (lifetime : Z) :
  exchangeToken serverUrl applicationId applicationSecret silent rt w
  = (Ok tokenBody, w1) ->
  Body.expires_in tokenBody = Num lifetime ->
  300 < lifetime ->
  Z.of_N (now w') + lifetime * 1000 < 2 ^ 53 ->
  startOauth2 serverUrl applicationId applicationSecret sub silent rt w
  = (Ok token, w') ->
  Token.sub passed = Token.sub token ->
  refreshToken passed w' = (Ok token, w').
Proof.
  intros Hex Hlife Hlong Hfit Hrun Hsub.
  destruct (startOauth2_success _ _ _ _ _ _ _ _ _ _ _ Hex Hrun) as [Hst Hexp].
  rewrite Hlife in Hexp.
  rewrite num_mul_exact, num_add_exact in Hexp by lia.
  rewrite <- Hsub in Hst.
  rewrite (refreshToken_stored _ _ _ Hst), Hexp. simpl.
  assert (Hnz : (Z.of_N (now w') + lifetime * 1000 =? 0) = false)
    by (apply Z.eqb_neq; lia).
  rewrite Hnz. simpl.
  assert (Hlt : (Z.of_N (now w') + tokenExpirationMargin
                 <? Z.of_N (now w') + lifetime * 1000) = true)
    by (apply Z.ltb_lt; unfold tokenExpirationMargin; lia).
  now rewrite Hlt.
Qed.

Lemma refreshToken_after_acquisition_is_idle_witness :
  let w := empty_world (sample_env false false false (Num 3600) "alice") in
  let run := startOauth2 "https://git.example.com" "app-id" "app-secret"
                         None false JsUndefined w in
  let token := Token.mk "a2" "alice" "app-id" "app-secret" (JsString "r2")
                        (Num 1793581205240) "https://git.example.com" alice_sub in
  refreshToken (alice_token NumUndefined) (snd run) = (Ok token, snd run).
Proof.
  intros w run token.
  pose (ex := exchangeToken "https://git.example.com" "app-id" "app-secret"
                            false JsUndefined w).
  apply (refreshToken_after_acquisition_is_idle
           w (snd ex) (snd run) "https://git.example.com" "app-id" "app-secret"
           None false JsUndefined (sample_body (Num 3600) "alice")
           token (alice_token NumUndefined) 3600).
  - vm_compute. reflexivity.
  - reflexivity.
  - lia.
  - vm_compute. reflexivity.
  - vm_compute. reflexivity.
  - reflexivity.
Defined.

(** [refreshToken] reads four fields of the token it is handed: the
    server url, the application id and secret, and the [sub].  Two tokens
    that agree on these give the same run, whatever their access token,
    refresh token and expiry say: those are taken from the stored
    entry. *)
Theorem refreshToken_ignores_stale_fields (w : World) (token1 token2 : Token.t) :
  Token.serverUrl token1 = Token.serverUrl token2 ->
  Token.applicationId token1 = Token.applicationId token2 ->
  Token.applicationSecret token1 = Token.applicationSecret token2 ->
  Token.sub token1 = Token.sub token2 ->
  refreshToken token1 w = refreshToken token2 w.
Proof.
  intros Hurl Hid Hsecret Hsub.
  unfold refreshToken. now rewrite Hurl, Hid, Hsecret, Hsub.
Qed.

Lemma refreshToken_ignores_stale_fields_witness :
  let w := sample_world (sample_env false false false (Num 3600) "alice")
                        (alice_token (Num 1793577599000)) in
  refreshToken (alice_token NumUndefined) w
  = refreshToken (Token.mk "stale" "someone" "app-id" "app-secret" JsNull NaN
                           "https://git.example.com" alice_sub) w.
Proof.
  intros w.
  apply (refreshToken_ignores_stale_fields
           w (alice_token NumUndefined)
           (Token.mk "stale" "someone" "app-id" "app-secret" JsNull NaN
                     "https://git.example.com" alice_sub));
    reflexivity.
Defined.

(** X11.  When the stored token's [expiresOn] is a number that is not
    beyond the clock plus five minutes -- the very margin included --
    [refreshToken] goes to the network, and the first call it makes is the
    POST of a refresh-token grant to the token endpoint of the passed
    token's server, with the passed token's application id and secret and
    the refresh token of the stored entry. *)
Theorem refreshToken_first_call_is_refresh_grant
    (w : World) (token lastToken : Token.t) (expiresOn : Z) :
  giteaTokensBySub w !! Token.sub token = Some lastToken ->
  Token.expiresOn lastToken = Num expiresOn ->
  expiresOn <> 0 ->
  expiresOn <= Z.of_N (now w) + 5 * 60 * 1000 ->
  exists d,
    events_since w (snd (refreshToken token w))
    = EvRequest
        (Options.mk (Some "POST")
           (Token.serverUrl token +:+ "/login/oauth/access_token") [] []
           [("client_id", JsString (Token.applicationId token));
            ("client_secret", JsString (Token.applicationSecret token));
            ("refresh_token", Token.refreshToken lastToken);
            ("grant_type", JsString "refresh_token");
            ("redirect_uri", JsString (oauth2RedirectUri (env w)))])
      :: d.
Proof.
  intros Hstored Hexp Hnz Hle.
  rewrite (refreshToken_stored _ _ _ Hstored), Hexp. simpl.
  apply Z.eqb_neq in Hnz. rewrite Hnz. simpl.
  assert (Hlt : (Z.of_N (now w) + tokenExpirationMargin <? expiresOn) = false)
    by (apply Z.ltb_ge; unfold tokenExpirationMargin; lia).
  rewrite Hlt.
  match goal with
  | |- exists d, events_since w (snd ?run) = ?ev :: d =>
      assert (Hfirst : exists d, trace (snd run) = trace w ++ ev :: d)
  end.
  { apply (try_catch_first_call any_event).
    - unfold startOauth2. apply (bind_first_call any_event).
      + exists []. unfold exchangeToken, bind, constants_oauth2RedirectUri. simpl.
        apply networkSvc_request_trace.
      + intros tokenBody.
        unfold userSvc_addUserInfo, Date_now.
        apply appends_bind; [ now apply appends_request | intros user ].
        apply appends_bind; [ now apply appends_emit | intros _ ].
        destruct (sub_mismatch _ _); appends_tac.
    - intros e. unfold state_offline.
      apply appends_bind; [ apply appends_read | intros is_offline ].
      destruct is_offline; [ apply appends_throw | ].
      apply appends_bind; [ now apply appends_modal_open | intros _ ].
      apply appends_any_startOauth2. }
  destruct Hfirst as (d & Ht). exists d. now apply events_since_app.
Qed.

Lemma refreshToken_first_call_is_refresh_grant_witness :
  let stored := alice_token (Num 1793577900000) in
  let w := sample_world (sample_env false false false (Num 3600) "alice") stored in
  exists d,
    events_since w (snd (refreshToken stored w))
    = EvRequest
        (Options.mk (Some "POST")
           "https://git.example.com/login/oauth/access_token" [] []
           [("client_id", JsString "app-id");
            ("client_secret", JsString "app-secret");
            ("refresh_token", JsString "r1");
            ("grant_type", JsString "refresh_token");
            ("redirect_uri", JsString "https://stackedit.example/oauth2/callback")])
      :: d.
Proof.
  intros stored w.
  apply (refreshToken_first_call_is_refresh_grant w stored stored 1793577900000).
  - reflexivity.
  - reflexivity.
  - discriminate.
  - vm_compute. discriminate.
Defined.

(** ** addAccount and the badge *)

Lemma appends_no_badge_refreshToken token :
  appends (fun e => negb (is_badge e)) (refreshToken token).
Proof.
  assert (Hstart : forall sub silent rt,
             appends (fun e => negb (is_badge e))
                     (startOauth2 (Token.serverUrl token) (Token.applicationId token)
                                  (Token.applicationSecret token) sub silent rt)).
  { intros sub silent rt.
    apply (appends_weaken (startOauth2_event silent)); [ | apply appends_startOauth2 ].
    intros e. now destruct e. }
  unfold refreshToken, getters_giteaTokensBySub, Date_now, state_offline.
  apply appends_bind; [ apply appends_read | intros tokensBySub ].
  destruct (tokensBySub !! Token.sub token) as [lastToken |];
    [ | apply appends_throw ].
  destruct (negb (num_truthy (Token.expiresOn lastToken))).
  - apply appends_bind; [ now apply appends_modal_open | intros _ ].
    apply Hstart.
  - apply appends_bind; [ apply appends_read | intros date_now ].
    destruct (num_gt _ _); [ apply appends_ret | ].
    apply appends_try_catch; [ apply Hstart | intros err ].
    apply appends_bind; [ apply appends_read | intros is_offline ].
    destruct is_offline; [ apply appends_throw | ].
    apply appends_bind; [ now apply appends_modal_open | intros _ ].
    apply Hstart.
Qed.

(** X12.  [addAccount] awards the badge addGiteaAccount exactly when
    [startOauth2] succeeded, once, as its last call, after the token was
    stored, and resolves to that token; when [startOauth2] fails,
    [addAccount] fails with the same error and awards nothing. *)
Theorem addAccount_badge_on_success
    (w w1 : World) (serverUrl applicationId applicationSecret : string)
    (sub : option string) :
  (forall token,
     startOauth2 serverUrl applicationId applicationSecret sub false JsUndefined w
     = (Ok token, w1) ->
     fst (addAccount serverUrl applicationId applicationSecret sub w) = Ok token
     /\ events_since w1 (snd (addAccount serverUrl applicationId applicationSecret
                                         sub w))
        = [EvAddBadge "addGiteaAccount"]
     /\ List.filter is_badge
          (events_since w (snd (addAccount serverUrl applicationId
                                           applicationSecret sub w)))
        = [EvAddBadge "addGiteaAccount"]
     /\ giteaTokensBySub (snd (addAccount serverUrl applicationId
                                          applicationSecret sub w))
        !! Token.sub token = Some token)
  /\ (forall err,
        startOauth2 serverUrl applicationId applicationSecret sub false JsUndefined w
        = (Throw err, w1) ->
        addAccount serverUrl applicationId applicationSecret sub w = (Throw err, w1)
        /\ List.filter is_badge (events_since w w1) = []).
Proof.
  destruct (startOauth2_trace serverUrl applicationId applicationSecret sub
                              false JsUndefined w) as (d & Ht & Hp).
  assert (Hnb : List.filter is_badge d = []).
  { apply (filter_nil_of_forallb (startOauth2_event false)); [ | exact Hp ].
    intros e. now destruct e. }
  split.
  - intros token Hrun. rewrite Hrun in Ht. simpl in Ht.
    assert (Hadd : addAccount serverUrl applicationId applicationSecret sub w
                   = (Ok token, snd (badgeSvc_addBadge "addGiteaAccount" w1))).
    { unfold addAccount. unfold bind at 1. rewrite Hrun. reflexivity. }
    rewrite Hadd. simpl.
    split; [ reflexivity | ].
    split; [ apply events_since_app; reflexivity | ].
    split.
    + erewrite events_since_app by (simpl; rewrite Ht, <- app_assoc; reflexivity).
      rewrite List.filter_app, Hnb. reflexivity.
    + destruct (startOauth2_success_inv _ _ _ _ _ _ _ _ _ Hrun)
        as (_ & _ & _ & _ & Hst & _). exact Hst.
  - intros err Hrun. rewrite Hrun in Ht. simpl in Ht.
    unfold addAccount. unfold bind at 1. rewrite Hrun.
    split; [ reflexivity | ]. now rewrite (events_since_app _ _ _ Ht).
Qed.

Lemma addAccount_badge_on_success_witness :
  let w := empty_world (sample_env false false false (Num 3600) "alice") in
  List.filter is_badge
    (events_since w (snd (addAccount "https://git.example.com" "app-id"
                                     "app-secret" None w)))
  = [EvAddBadge "addGiteaAccount"]
  /\ addAccount "https://git.example.com" "app-id" "app-secret" None
                (empty_world (failing_env None))
     = (Throw (Rejection None "popup closed"),
        snd (startOauth2 "https://git.example.com" "app-id" "app-secret" None
                         false JsUndefined (empty_world (failing_env None)))).
Proof.
  intros w. split.
  - pose (run := startOauth2 "https://git.example.com" "app-id" "app-secret"
                             None false JsUndefined w).
    destruct (addAccount_badge_on_success
                w (snd run) "https://git.example.com" "app-id" "app-secret" None)
      as [Hok _].
    destruct (Hok (Token.mk "a2" "alice" "app-id" "app-secret" (JsString "r2")
                            (Num 1793581205240) "https://git.example.com"
                            alice_sub))
      as (_ & _ & Hbadge & _); [ vm_compute; reflexivity | exact Hbadge ].
  - pose (w0 := empty_world (failing_env None)).
    pose (run := startOauth2 "https://git.example.com" "app-id" "app-secret"
                             None false JsUndefined w0).
    destruct (addAccount_badge_on_success
                w0 (snd run) "https://git.example.com" "app-id" "app-secret" None)
      as [_ Hfail].
    destruct (Hfail (Rejection None "popup closed")) as [Hrun _];
      [ vm_compute; reflexivity | exact Hrun ].
Defined.

(** X13.  [refreshToken] never awards a badge, whichever way it goes:
    stored token returned, silent refresh, or prompt and interactive
    re-authorization. *)
Theorem refreshToken_awards_no_badge (w : World) (token : Token.t) :
  List.filter is_badge (events_since w (snd (refreshToken token w))) = [].
Proof.
  destruct (appends_no_badge_refreshToken token w) as (d & Ht & Hp & _).
  rewrite (events_since_app _ _ _ Ht).
  apply (filter_nil_of_forallb (fun e => negb (is_badge e))); [ | exact Hp ].
  intros e He. now apply negb_true_iff in He.
Qed.

(** ** The authenticated operations, as a family *)

(** X14.  An operation does nothing once the refresh has failed: when
    [refreshToken] rejects, each of the five authenticated operations
    rejects with the same error, in the world the refresh left, without
    sending its own request. *)
Theorem operations_propagate_refresh_failure
    (w w1 : World) (token : Token.t) (err : JsError) :
  refreshToken token w = (Throw err, w1) ->
  (forall projectId branch,
     getTree token projectId branch w = (Throw err, w1))
  /\ (forall projectId branch path,
        getCommits token projectId branch path w = (Throw err, w1))
  /\ (forall projectId branch path content sha,
        uploadFile token projectId branch path content sha w = (Throw err, w1))
  /\ (forall projectId branch path sha,
        removeFile token projectId branch path sha w = (Throw err, w1))
  /\ (forall projectId branch path,
        downloadFile token projectId branch path w = (Throw err, w1)).
Proof.
  intros Hrun.
  repeat split; intros;
    unfold getTree, getCommits, uploadFile, removeFile, downloadFile;
    unfold bind at 1; now rewrite Hrun.
Qed.

Lemma operations_propagate_refresh_failure_witness :
  let stored := alice_token (Num 1793577600000) in
  let w := sample_world (sample_env true false true (Num 3600) "alice") stored in
  fst (downloadFile stored (JsString "org/repo") "main" "a.md" w)
  = Throw (Rejection (Some 400) "invalid_grant").
Proof.
  intros stored w.
  destruct (operations_propagate_refresh_failure
              w (snd (refreshToken stored w)) stored
              (Rejection (Some 400) "invalid_grant"))
    as (_ & _ & _ & _ & Hdownload).
  - vm_compute. reflexivity.
  - rewrite Hdownload. reflexivity.
Defined.

Lemma prefix_append_same (a b c : string) :
  String.prefix (a +:+ b) (a +:+ c) = String.prefix b c.
Proof.
  induction a as [| x a IH]; simpl; [ reflexivity | ].
  now destruct (ascii_dec x x).
Qed.

Lemma request_authenticated_by (refreshed : Token.t) (options : Options.t)
    (rest : string) (w1 : World) :
  Options.url options = "repos/" +:+ rest ->
  exists sent,
    events_since w1 (snd (request (Token.accessToken refreshed)
                                  (Token.serverUrl refreshed) options w1))
    = [EvRequest sent]
    /\ authenticated_by refreshed (EvRequest sent) = true.
Proof.
  intros Hurl. eexists. split.
  - apply events_since_app. unfold request. apply networkSvc_request_trace.
  - simpl. rewrite get_field_set_field_eq, String.eqb_refl, Hurl.
    rewrite prefix_append_same.
    change ("/api/v1/" +:+ "repos/" +:+ rest) with ("/api/v1/repos/" +:+ rest).
    change (String.prefix "/api/v1/repos/")
      with (String.prefix ("/api/v1/repos/" +:+ "")).
    rewrite prefix_append_same. now destruct rest.
Qed.

(** X15.  After the refresh has resolved, the request of an operation is
    made with the refreshed token, not with the token passed in: it goes
    to [/api/v1/repos/] on the refreshed token's server and carries the
    refreshed token's access token as bearer.  [getTree], [getCommits] and
    [downloadFile] always make exactly this one call; [uploadFile] and
    [removeFile] make it when their commit message template is set. *)
Theorem operations_use_refreshed_token
    (w w1 : World) (token refreshed : Token.t) (projectId : JsVal)
    (branch path content : string) (sha : JsVal) :
  refreshToken token w = (Ok refreshed, w1) ->
  let one_call (w' : World) :=
    exists sent, events_since w1 w' = [EvRequest sent]
                 /\ authenticated_by refreshed (EvRequest sent) = true in
  one_call (snd (getTree token projectId branch w))
  /\ one_call (snd (getCommits token projectId branch path w))
  /\ one_call (snd (downloadFile token projectId branch path w))
  /\ (git w1 !! (if truthy sha then "updateFileMessage" else "createFileMessage")
      <> None ->
      one_call (snd (uploadFile token projectId branch path content sha w)))
  /\ (git w1 !! "deleteFileMessage" <> None ->
      one_call (snd (removeFile token projectId branch path sha w))).
Proof.
  intros Hrun one_call. unfold one_call.
  split; [ | split; [ | split; [ | split ] ] ].
  - unfold getTree. unfold bind at 1. rewrite Hrun.
    now apply (request_authenticated_by refreshed _
                 (to_string projectId +:+ "/git/trees/" +:+ branch)).
  - unfold getCommits. unfold bind at 1. rewrite Hrun.
    now apply (request_authenticated_by refreshed _
                 (to_string projectId +:+ "/commits")).
  - unfold downloadFile. unfold bind at 1. rewrite Hrun.
    match goal with
    | |- context [ bind (request ?a ?s ?o) _ w1 ] =>
        destruct (request_authenticated_by refreshed o
                    (to_string projectId +:+ "/contents/"
                     +:+ encodeURIComponent path) w1 eq_refl)
          as (sent & Hev & Hauth);
        exists sent; split; [ | exact Hauth ];
        unfold bind at 1;
        destruct (request a s o w1) as [[res | e] w2]; simpl in Hev |- *
    end.
    + unfold bind, utils_decodeBase64, ret.
      now destruct (decodeBase64 (env w2) (Body.content res)).
    + exact Hev.
  - intros Hset.
    destruct (git w1 !! (if truthy sha then "updateFileMessage"
                         else "createFileMessage")) as [template |] eqn:Hgit;
      [ | congruence ].
    unfold uploadFile. unfold bind at 1. rewrite Hrun.
    unfold bind at 1, getCommitMessage. rewrite Hgit.
    unfold bind at 1, utils_encodeBase64.
    now apply (request_authenticated_by refreshed _
                 (to_string projectId +:+ "/contents/"
                  +:+ encodeURIComponent path)).
  - intros Hset.
    destruct (git w1 !! "deleteFileMessage") as [template |] eqn:Hgit;
      [ | congruence ].
    unfold removeFile. unfold bind at 1. rewrite Hrun.
    unfold bind at 1, getCommitMessage. rewrite Hgit.
    now apply (request_authenticated_by refreshed _
                 (to_string projectId +:+ "/contents/"
                  +:+ encodeURIComponent path)).
Qed.

Lemma operations_use_refreshed_token_witness :
  let stored := alice_token (Num 1793577599000) in
  let w := sample_world (sample_env false false false (Num 3600) "alice") stored in
  let refreshed := Token.mk "a2" "alice" "app-id" "app-secret" (JsString "r2")
                            (Num 1793581200240) "https://git.example.com"
                            alice_sub in
  exists sent,
    events_since (snd (refreshToken stored w))
                 (snd (getTree stored (JsString "org/repo") "main" w))
    = [EvRequest sent]
    /\ authenticated_by refreshed (EvRequest sent) = true.
Proof.
  intros stored w refreshed.
  destruct (operations_use_refreshed_token
              w (snd (refreshToken stored w)) stored refreshed
              (JsString "org/repo") "main" "a.md" "hello" JsUndefined)
    as (Htree & _).
  - vm_compute. reflexivity.
  - exact Htree.
Defined.

(** X16.  [downloadFile], once the refresh and the request have resolved:
    the request is a plain GET on the URL-escaped path with the branch as
    [ref]; the result carries the [sha] of the response unchanged and the
    decoded [content]; and when decoding raises, [downloadFile] rejects
    with that error although the request went through. *)
Theorem downloadFile_decodes_content
    (w w1 w2 : World) (token refreshed : Token.t) (projectId : JsVal)
    (branch path : string) (res : Body.t) :
  refreshToken token w = (Ok refreshed, w1) ->
  request (Token.accessToken refreshed) (Token.serverUrl refreshed)
          (Options.mk None
             ("repos/" +:+ to_string projectId +:+ "/contents/"
              +:+ encodeURIComponent path)
             [] [("ref", JsString branch)] []) w1 = (Ok res, w2) ->
  downloadFile token projectId branch path w
  = match decodeBase64 (env w2) (Body.content res) with
    | inr data => (Ok (Download.mk (Body.sha res) data), w2)
    | inl e => (Throw e, w2)
    end.
Proof.
  intros Hrun Hreq.
  unfold downloadFile. unfold bind at 1. rewrite Hrun.
  unfold bind at 1. rewrite Hreq.
  unfold bind, utils_decodeBase64, ret.
  now destruct (decodeBase64 (env w2) (Body.content res)).
Qed.

(** X17.  The commit message comes first.  When the template of the
    operation is missing from the settings, [uploadFile] and [removeFile]
    reject with a [TypeError] right after the refresh and send nothing.
    When the delete template is there, [removeFile] sends one DELETE on
    the URL-escaped path whose body is the message, the [sha] as passed in
    and the branch. *)
Theorem removeFile_needs_commit_message
    (w w1 : World) (token refreshed : Token.t) (projectId : JsVal)
    (branch path content : string) (sha : JsVal) :
  refreshToken token w = (Ok refreshed, w1) ->
  let err := TypeError "Cannot read properties of undefined (reading 'replace')" in
  (git w1 !! "deleteFileMessage" = None ->
     removeFile token projectId branch path sha w = (Throw err, w1))
  /\ (git w1 !! (if truthy sha then "updateFileMessage" else "createFileMessage")
      = None ->
      uploadFile token projectId branch path content sha w = (Throw err, w1))
  /\ (forall template, git w1 !! "deleteFileMessage" = Some template ->
        removeFile token projectId branch path sha w
        = networkSvc_request
            (Options.mk (Some "DELETE")
               (Token.serverUrl refreshed +:+ "/api/v1/" +:+ "repos/"
                +:+ to_string projectId +:+ "/contents/"
                +:+ encodeURIComponent path)
               [("Authorization", "Bearer " +:+ Token.accessToken refreshed)]
               []
               [("message", JsString (replace_placeholder O "" template path));
                ("sha", sha);
                ("branch", JsString branch)]) w1).
Proof.
  intros Hrun err. split; [ | split ].
  - intros Hnone. unfold removeFile. unfold bind at 1. rewrite Hrun.
    unfold bind at 1, getCommitMessage. now rewrite Hnone.
  - intros Hnone. unfold uploadFile. unfold bind at 1. rewrite Hrun.
    unfold bind at 1, getCommitMessage. now rewrite Hnone.
  - intros template Hgit. unfold removeFile. unfold bind at 1. rewrite Hrun.
    unfold bind at 1, getCommitMessage. now rewrite Hgit.
Qed.

Lemma downloadFile_decodes_content_witness :
  let stored := alice_token (Num 1793577900001) in
  let w := sample_world (sample_env false false false (Num 3600) "alice") stored in
  fst (downloadFile stored (JsString "org/repo") "main" "docs/a b.md" w)
  = Ok (Download.mk (JsString "h1") "aGVsbG8=").
Proof.
  intros stored w.
  pose (rq := request "a1" "https://git.example.com"
                (Options.mk None "repos/org/repo/contents/docs%2Fa%20b.md"
                            [] [("ref", JsString "main")] []) w).
  rewrite (downloadFile_decodes_content
             w w (snd rq) stored stored (JsString "org/repo") "main" "docs/a b.md"
             (sample_body (Num 3600) "alice")).
  - reflexivity.
  - vm_compute. reflexivity.
  - vm_compute. reflexivity.
Defined.

Lemma removeFile_needs_commit_message_witness :
  let stored := alice_token (Num 1793577900001) in
  let w := mkWorld (sample_env false false false (Num 3600) "alice")
                   (<[alice_sub := stored]> ∅) false ∅ sample_now [] in
  removeFile stored (JsString "org/repo") "main" "a.md" (JsString "h1") w
  = (Throw (TypeError "Cannot read properties of undefined (reading 'replace')"), w).
Proof.
  intros stored w.
  destruct (removeFile_needs_commit_message
              w w stored stored (JsString "org/repo") "main" "a.md" "hello"
              (JsString "h1"))
    as (Hmissing & _).
  - vm_compute. reflexivity.
  - apply Hmissing. reflexivity.
Defined.

(** ** The commit message *)

Lemma string_app_assoc (a b c : string) : (a +:+ b) +:+ c = a +:+ b +:+ c.
Proof.
  induction a as [| x a IH]; [ reflexivity | ].
  change (String x ((a +:+ b) +:+ c) = String x (a +:+ b +:+ c)).
  now rewrite IH.
Qed.

Lemma string_app_nil_r (a : string) : a +:+ "" = a.
Proof.
  induction a as [| x a IH]; [ reflexivity | ].
  change (String x (a +:+ "") = String x a). now rewrite IH.
Qed.

(** A replacement without [$] stands for itself. *)
Lemma get_substitution_no_dollar matched before after replacement :
  string_forall is_not_dollar replacement = true ->
  get_substitution matched before after replacement = replacement.
Proof.
  induction replacement as [| c rest IH]; simpl; [ reflexivity | ].
  intros H. apply andb_true_iff in H as [Hc Hrest].
  unfold is_not_dollar, is_dollar in Hc. apply negb_true_iff in Hc.
  rewrite Hc. now rewrite (IH Hrest).
Qed.

Lemma get_substitution_app matched before after head replacement :
  string_forall is_not_dollar head = true ->
  get_substitution matched before after (head +:+ replacement)
  = head +:+ get_substitution matched before after replacement.
Proof.
  induction head as [| c rest IH]; simpl; [ reflexivity | ].
  intros H. apply andb_true_iff in H as [Hc Hrest].
  unfold is_not_dollar, is_dollar in Hc. apply negb_true_iff in Hc.
  rewrite Hc. now rewrite (IH Hrest).
Qed.

Lemma prefix_placeholder_other (c : ascii) (rest : string) :
  is_open_brace c = false ->
  String.prefix path_placeholder (String c rest) = false.
Proof.
  intros Hc. unfold path_placeholder.
  change (String.prefix "{{path}}" (String c rest))
    with (if ascii_dec "{" c then String.prefix "{path}}" rest else false).
  destruct (ascii_dec "{" c) as [<- | _]; [ discriminate | reflexivity ].
Qed.

(** The scan passes over text without an opening brace. *)
Lemma replace_placeholder_app head before s replacement :
  string_forall is_not_open_brace head = true ->
  replace_placeholder O before (head +:+ s) replacement
  = head +:+ replace_placeholder O (before +:+ head) s replacement.
Proof.
  revert before. induction head as [| c rest IH]; intros before.
  - intros _. simpl. now rewrite string_app_nil_r.
  - intros H. simpl in H. apply andb_true_iff in H as [Hc Hrest].
    unfold is_not_open_brace in Hc. apply negb_true_iff in Hc.
    pose proof (prefix_placeholder_other c (rest +:+ s) Hc) as Hp.
    change (String c rest +:+ s) with (String c (rest +:+ s)).
    unfold replace_placeholder at 1; fold replace_placeholder.
    rewrite Hp, (IH _ Hrest), string_app_assoc. reflexivity.
Qed.

Lemma replace_placeholder_skip n c s before replacement :
  replace_placeholder (S n) before (String c s) replacement
  = replace_placeholder n (before +:+ String c "") s replacement.
Proof. reflexivity. Qed.

(** The scan at a placeholder: the substitution, then the scan goes on
    behind the placeholder. *)
Lemma replace_placeholder_here before rest replacement :
  replace_placeholder O before (path_placeholder +:+ rest) replacement
  = get_substitution path_placeholder before rest replacement
    +:+ replace_placeholder O (before +:+ path_placeholder) rest replacement.
Proof.
  assert (Hp : String.prefix path_placeholder (path_placeholder +:+ rest) = true).
  { rewrite <- (string_app_nil_r path_placeholder) at 1.
    rewrite prefix_append_same. now destruct rest. }
  change (path_placeholder +:+ rest) with (String "{" ("{path}}" +:+ rest)) in *.
  unfold replace_placeholder at 1; fold replace_placeholder.
  rewrite Hp.
  change (string_drop (String.length path_placeholder)
                      (String "{" ("{path}}" +:+ rest))) with rest.
  f_equal.
  change (String.length path_placeholder - 1)%nat with 7%nat.
  change ("{path}}" +:+ rest)
    with (String "{" (String "p" (String "a" (String "t" (String "h"
            (String "}" (String "}" rest))))))).
  rewrite !replace_placeholder_skip, !string_app_assoc. reflexivity.
Qed.

Lemma replace_placeholder_pieces before pieces replacement :
  string_forall is_not_dollar replacement = true ->
  Forall (fun piece => string_forall is_not_open_brace piece = true) pieces ->
  replace_placeholder O before (join_with path_placeholder pieces) replacement
  = join_with replacement pieces.
Proof.
  intros Hrep Hpieces. revert before.
  induction Hpieces as [| piece rest Hpiece Hrest IH]; intros before;
    [ reflexivity | ].
  destruct rest as [| next rest'].
  - simpl. rewrite <- (string_app_nil_r piece) at 1.
    rewrite (replace_placeholder_app _ _ _ _ Hpiece). simpl.
    now rewrite string_app_nil_r.
  - change (join_with path_placeholder (piece :: next :: rest'))
      with (piece +:+ path_placeholder +:+ join_with path_placeholder (next :: rest')).
    change (join_with replacement (piece :: next :: rest'))
      with (piece +:+ replacement +:+ join_with replacement (next :: rest')).
    rewrite (replace_placeholder_app _ _ _ _ Hpiece), replace_placeholder_here.
    rewrite (get_substitution_no_dollar _ _ _ _ Hrep), IH. reflexivity.
Qed.

(** X18.  [getCommitMessage] puts the path in place of every
    [{{path}}] of the template.  For a template that is pieces of text
    without an opening brace joined by the placeholder, and a path without
    a dollar sign, the message is the same pieces joined by the path. *)
Theorem getCommitMessage_substitutes_every_placeholder
    (w : World) (name path : string) (pieces : list string) :
  git w !! name = Some (join_with "{{path}}" pieces) ->
  string_forall is_not_dollar path = true ->
  Forall (fun piece => string_forall is_not_open_brace piece = true) pieces ->
  getCommitMessage name path w = (Ok (join_with path pieces), w).
Proof.
  intros Hgit Hpath Hpieces. unfold getCommitMessage. rewrite Hgit.
  change (join_with "{{path}}" pieces) with (join_with path_placeholder pieces).
  now rewrite (replace_placeholder_pieces "" pieces path Hpath Hpieces).
Qed.

Lemma getCommitMessage_substitutes_every_placeholder_witness :
  let w := mkWorld (sample_env false false false (Num 3600) "alice") ∅ false
                   (<["updateFileMessage" := "Update {{path}} (was {{path}})"]> ∅)
                   sample_now [] in
  getCommitMessage "updateFileMessage" "docs/a.md" w
  = (Ok "Update docs/a.md (was docs/a.md)", w).
Proof.
  intros w.
  apply (getCommitMessage_substitutes_every_placeholder
           w "updateFileMessage" "docs/a.md" ["Update "; " (was "; ")"]).
  - reflexivity.
  - reflexivity.
  - repeat constructor.
Defined.

(** X19.  The path is not always taken literally: it is the replacement
    string of [String.prototype.replace], in which [$&] stands for the
    matched text.  For a template with one placeholder, a path that
    contains [$&] between two parts without dollar sign yields a message
    in which the placeholder itself appears where [$&] was. *)
Theorem getCommitMessage_dollar_ampersand
    (w : World) (name before after head tail : string) :
  git w !! name = Some (before +:+ "{{path}}" +:+ after) ->
  string_forall is_not_open_brace before = true ->
  string_forall is_not_open_brace after = true ->
  string_forall is_not_dollar head = true ->
  string_forall is_not_dollar tail = true ->
  getCommitMessage name (head +:+ "$&" +:+ tail) w
  = (Ok (before +:+ head +:+ "{{path}}" +:+ tail +:+ after), w).
Proof.
  intros Hgit Hbefore Hafter Hhead Htail.
  unfold getCommitMessage. rewrite Hgit. f_equal. f_equal.
  rewrite (replace_placeholder_app _ _ _ _ Hbefore).
  fold path_placeholder. rewrite replace_placeholder_here.
  rewrite (get_substitution_app _ _ _ _ _ Hhead).
  change ("$&" +:+ tail) with (String "$" (String "&" tail)).
  unfold get_substitution at 1; fold get_substitution.
  change (Ascii.eqb "$" "$") with true. cbv iota.
  change (Ascii.eqb "&" "$") with false.
  change (Ascii.eqb "&" "&") with true. cbv iota.
  rewrite (get_substitution_no_dollar _ _ _ _ Htail).
  rewrite <- (string_app_nil_r after) at 1.
  rewrite (replace_placeholder_app _ _ _ _ Hafter). simpl.
  rewrite string_app_nil_r.
  unfold path_placeholder. now rewrite !string_app_assoc.
Qed.

Lemma getCommitMessage_dollar_ampersand_witness :
  let w := empty_world (sample_env false false false (Num 3600) "alice") in
  getCommitMessage "createFileMessage" "cash$&.md" w
  = (Ok "Create cash{{path}}.md from StackEdit", w).
Proof.
  intros w.
  apply (getCommitMessage_dollar_ampersand
           w "createFileMessage" "Create " " from StackEdit" "cash" ".md");
    reflexivity.
Defined.

(** ** The escaped path *)

Lemma hex_digits_safe (c : ascii) :
  is_uri_safe (hex_digit (N_of_ascii c / 16)) = true
  /\ is_uri_safe (hex_digit (N_of_ascii c mod 16)) = true.
Proof.
  destruct c as [[] [] [] [] [] [] [] []]; vm_compute; split; reflexivity.
Qed.

Lemma percent_value_hex_digits (c : ascii) :
  percent_value (hex_digit (N_of_ascii c / 16)) (hex_digit (N_of_ascii c mod 16))
  = N_of_ascii c.
Proof.
  destruct c as [[] [] [] [] [] [] [] []]; vm_compute; reflexivity.
Qed.

Lemma uri_safe_not_slash (s : string) :
  string_forall is_uri_safe s = true -> no_slash s = true.
Proof.
  induction s as [| c rest IH]; simpl; [ reflexivity | ].
  intros H. apply andb_true_iff in H as [Hc Hrest].
  rewrite (IH Hrest), andb_true_r.
  destruct (is_slash c) eqn:Hs; [ | reflexivity ].
  apply is_slash_eq in Hs. subst c. discriminate.
Qed.

(** X20.  What [encodeURIComponent] makes of a path: every character of
    the result is unreserved (a letter, a digit or one of [-_.!~*'()]) or
    the percent sign, so the result has no slash and the escaped path is a
    single segment of the request url; and a path made of unreserved
    characters only is left as it is. *)
Theorem encodeURIComponent_is_one_segment (path : string) :
  string_forall is_uri_safe (encodeURIComponent path) = true
  /\ no_slash (encodeURIComponent path) = true
  /\ (string_forall is_unreserved path = true -> encodeURIComponent path = path).
Proof.
  assert (Hsafe : string_forall is_uri_safe (encodeURIComponent path) = true).
  { induction path as [| c rest IH]; [ reflexivity | ].
    simpl. destruct (is_unreserved c) eqn:Hc; simpl.
    - unfold is_uri_safe at 1. now rewrite Hc, IH.
    - destruct (hex_digits_safe c) as [Hhigh Hlow].
      now rewrite Hhigh, Hlow, IH. }
  split; [ exact Hsafe | ]. split; [ now apply uri_safe_not_slash | ].
  induction path as [| c rest IH]; simpl; [ reflexivity | ].
  intros H. apply andb_true_iff in H as [Hc Hrest].
  rewrite Hc, IH; [ reflexivity | | exact Hrest ].
  clear -Hsafe Hc. simpl in Hsafe. rewrite Hc in Hsafe. simpl in Hsafe.
  now apply andb_true_iff in Hsafe as [_ Hsafe].
Qed.

Lemma encodeURIComponent_is_one_segment_witness :
  encodeURIComponent "README-v1.0_(draft).md" = "README-v1.0_(draft).md".
Proof.
  apply (encodeURIComponent_is_one_segment "README-v1.0_(draft).md").
  reflexivity.
Defined.

(** X21.  [encodeURIComponent] loses nothing: two paths with the same
    escaped form are the same path, so two different files are never
    addressed by the same request url. *)
Theorem encodeURIComponent_injective (path1 path2 : string) :
  encodeURIComponent path1 = encodeURIComponent path2 -> path1 = path2.
Proof.
  revert path2. induction path1 as [| c1 rest1 IH]; intros [| c2 rest2]; simpl.
  - reflexivity.
  - destruct (is_unreserved c2); discriminate.
  - destruct (is_unreserved c1); discriminate.
  - destruct (is_unreserved c1) eqn:H1, (is_unreserved c2) eqn:H2.
    + intros [= -> Hrest]. now rewrite (IH _ Hrest).
    + intros [= -> _]. discriminate.
    + intros [= <- _]. discriminate.
    + intros [= Hhigh Hlow Hrest].
      assert (Hn : N_of_ascii c1 = N_of_ascii c2).
      { rewrite <- (percent_value_hex_digits c1), <- (percent_value_hex_digits c2).
        now rewrite Hhigh, Hlow. }
      apply (f_equal ascii_of_N) in Hn. rewrite !ascii_N_embedding in Hn.
      subst c2. now rewrite (IH _ Hrest).
Qed.

Lemma encodeURIComponent_injective_witness :
  "docs/a b.md" = "docs/a b.md".
Proof.
  apply (encodeURIComponent_injective "docs/a b.md" "docs/a b.md").
  reflexivity.
Defined.

(** ** The repository name *)

Lemma split_slash_segments_no_slash (s : string) :
  Forall (fun segment => no_slash segment = true) (split_slash s).
Proof.
  induction s as [| c rest IH]; simpl; [ now repeat constructor | ].
  destruct (is_slash c) eqn:Hc; [ now constructor | ].
  destruct (split_slash rest) as [| segment segments];
    [ repeat constructor; simpl; now rewrite Hc | ].
  inversion IH as [| ? ? Hseg Hsegs]; subst.
  constructor; [ simpl; now rewrite Hc, Hseg | exact Hsegs ].
Qed.

(** The match is the end of the input, and is matched whole by the
    pattern. *)
Lemma match_repoFullName_suffix (s m : string) :
  match_repoFullName s = Some m ->
  match_repo_here m = Some m /\ exists before, s = before +:+ m.
Proof.
  induction s as [| c rest IH]; [ discriminate | ].
  unfold match_repoFullName; fold match_repoFullName.
  destruct (match_repo_here (String c rest)) as [m' |] eqn:Hhere.
  - intros [= <-].
    assert (Hm : m' = String c rest).
    { rewrite match_repo_here_split in Hhere.
      destruct (two_nonempty _); now inversion Hhere. }
    subst m'. split; [ exact Hhere | now exists "" ].
  - intros Hrest. destruct (IH Hrest) as [Hm [before ->]].
    split; [ exact Hm | now exists (String c before) ].
Qed.

(** X22.  The name [getProjectId] derives from a path is a stable
    [owner/name]: it is the end of the path, it is two non-empty parts
    without slash around one slash, and deriving again from the derived
    name gives the same name. *)
Theorem getProjectId_derived_name_is_stable
    (w w' : World) (projectPath : string) (projectId v : JsVal) :
  truthy projectId = false ->
  getProjectId projectPath projectId w = (Ok v, w') ->
  exists owner name,
    v = JsString (owner +:+ "/" +:+ name)
    /\ nonempty owner = true /\ no_slash owner = true
    /\ nonempty name = true /\ no_slash name = true
    /\ (exists before, projectPath = before +:+ owner +:+ "/" +:+ name)
    /\ getProjectId (owner +:+ "/" +:+ name) projectId w = (Ok v, w).
Proof.
  intros Hunset Hrun. unfold getProjectId in Hrun. rewrite Hunset in Hrun.
  destruct (match_repoFullName projectPath) as [m |] eqn:Hmatch;
    [ | discriminate ].
  injection Hrun as <- <-.
  destruct (match_repoFullName_suffix _ _ Hmatch) as [Hhere [before Hpath]].
  pose proof Hhere as Hsplit. rewrite match_repo_here_split in Hsplit.
  pose proof (join_split_slash m) as Hjoin.
  pose proof (split_slash_segments_no_slash m) as Hsegs.
  destruct (split_slash m) as [| owner [| name [| x l]]]; try discriminate.
  simpl in Hsplit.
  destruct (nonempty owner) eqn:Howner; [ | discriminate ].
  destruct (nonempty name) eqn:Hname; [ | discriminate ].
  pose proof (List.Forall_inv Hsegs) as Ho.
  pose proof (List.Forall_inv (List.Forall_inv_tail Hsegs)) as Hn.
  simpl in Ho, Hn, Hjoin. exists owner, name.
  change (owner +:+ "/" +:+ name) with (owner +:+ String "/" name).
  rewrite Hjoin.
  split; [ reflexivity | ]. repeat (split; [ assumption | ]).
  split; [ now exists before | ].
  unfold getProjectId. rewrite Hunset.
  destruct m as [| c rest]; [ discriminate | ].
  unfold match_repoFullName; fold match_repoFullName. now rewrite Hhere.
Qed.

Lemma getProjectId_derived_name_is_stable_witness :
  let w := empty_world (sample_env false false false (Num 3600) "alice") in
  exists owner name,
    JsString "repo/sub" = JsString (owner +:+ "/" +:+ name)
    /\ getProjectId (owner +:+ "/" +:+ name) JsUndefined w
       = (Ok (JsString "repo/sub"), w).
Proof.
  intros w.
  destruct (getProjectId_derived_name_is_stable
              w w "org/repo/sub" JsUndefined (JsString "repo/sub"))
    as (owner & name & Hv & _ & _ & _ & _ & _ & Hagain).
  - reflexivity.
  - reflexivity.
  - now exists owner, name.
Defined.

(** ** A token response without a lifetime *)

(** X23.  When the [expires_in] of the token response converts to no
    number (the field is missing, or it is a string that is not a numeric
    literal), [startOauth2] still succeeds, but the [expiresOn] it stores
    is not a number; the next [refreshToken] for that account then treats
    the token like a legacy one: it goes to the modal prompt and the
    interactive flow, and the refresh token just received is not used. *)
Theorem startOauth2_without_lifetime_forces_prompt
    (w w1 w' : World) (serverUrl applicationId applicationSecret : string)
    (sub : option string) (silent : bool) (rt : JsVal)
    (tokenBody : Body.t) (token passed : Token.t) :
  exchangeToken serverUrl applicationId applicationSecret silent rt w
  = (Ok tokenBody, w1) ->
  to_double (Body.expires_in tokenBody) = S754_nan ->
  startOauth2 serverUrl applicationId applicationSecret sub silent rt w
  = (Ok token, w') ->
  Token.sub passed = Token.sub token ->
  Token.expiresOn token = NaN
  /\ refreshToken passed w'
     = (modal_open "providerRedirection" "Gitea" ;;
        startOauth2 (Token.serverUrl passed) (Token.applicationId passed)
                    (Token.applicationSecret passed) (Some (Token.sub passed))
                    false JsUndefined) w'
  /\ List.filter is_silent_exchange
       (events_since w' (snd (refreshToken passed w'))) = [].
Proof.
  intros Hex Hnolife Hrun Hsub.
  destruct (startOauth2_success _ _ _ _ _ _ _ _ _ _ _ Hex Hrun) as [Hst Hexp].
  assert (Hnan : Token.expiresOn token = NaN).
  { rewrite Hexp. apply num_add_nan. now apply num_mul_nan. }
  rewrite <- Hsub in Hst.
  assert (Hnext : refreshToken passed w'
                  = (modal_open "providerRedirection" "Gitea" ;;
                     startOauth2 (Token.serverUrl passed)
                                 (Token.applicationId passed)
                                 (Token.applicationSecret passed)
                                 (Some (Token.sub passed)) false JsUndefined) w').
  { rewrite (refreshToken_stored _ _ _ Hst), Hnan. reflexivity. }
  split; [ exact Hnan | ]. split; [ exact Hnext | ].
  rewrite Hnext.
  destruct (prompt_then_reauthorize_trace
              (Token.serverUrl passed) (Token.applicationId passed)
              (Token.applicationSecret passed) (Some (Token.sub passed)) w')
    as (d & Ht & Hp).
  rewrite (events_since_app _ _ _ Ht). simpl.
  apply (filter_nil_of_forallb (startOauth2_event false)); [ | exact Hp ].
  intros e He. apply startOauth2_event_interactive_not_silent in He.
  now destruct (is_silent_exchange e).
Qed.

Lemma startOauth2_without_lifetime_forces_prompt_witness :
  let w := empty_world (sample_env false false false NumUndefined "alice") in
  let run := startOauth2 "https://git.example.com" "app-id" "app-secret"
                         None false JsUndefined w in
  let token := Token.mk "a2" "alice" "app-id" "app-secret" (JsString "r2")
                        NaN "https://git.example.com" alice_sub in
  Token.expiresOn token = NaN
  /\ List.filter is_silent_exchange
       (events_since (snd run) (snd (refreshToken token (snd run)))) = [].
Proof.
  intros w run token.
  pose (ex := exchangeToken "https://git.example.com" "app-id" "app-secret"
                            false JsUndefined w).
  destruct (startOauth2_without_lifetime_forces_prompt
              w (snd ex) (snd run) "https://git.example.com" "app-id" "app-secret"
              None false JsUndefined (sample_body NumUndefined "alice")
              token token)
    as (Hnan & _ & Hsilent).
  - vm_compute. reflexivity.
  - reflexivity.
  - vm_compute. reflexivity.
  - reflexivity.
  - split; [ exact Hnan | exact Hsilent ].
Defined.

(** The other values JSON can put in [expires_in] do convert: [null] is
    zero, so the token expires at once; a string holding a numeric
    literal counts as that number. *)
Example startOauth2_null_or_string_lifetime :
  let run lifetime :=
    startOauth2 "https://git.example.com" "app-id" "app-secret"
                None false JsUndefined
                (empty_world (sample_env false false false lifetime "alice")) in
  (exists token,
     fst (run NumNull) = Ok token
     /\ Token.expiresOn token = Num (Z.of_N (now (snd (run NumNull)))))
  /\ (exists token,
        fst (run (NumString "3600")) = Ok token
        /\ Token.expiresOn token
           = Num (Z.of_N (now (snd (run (NumString "3600")))) + 3600 * 1000))
  /\ (exists token,
        fst (run (NumString "soon")) = Ok token
        /\ Token.expiresOn token = NaN).
Proof.
  split; [ | split ]; eexists; split; vm_compute; reflexivity.
Qed.
